(** * SSVI: substation inspection intake — verification of the server routes
      and of the substation selection page

    The development embeds two parts of the repository:

    - [Server]: the Express routes of [server.ts] (the version that keeps the
      [recentSubmissions] map): [POST /api/upload-inspection] and
      [GET /api/dashboard-stats], with the lazily created service singletons
      they use.  The handlers are written in a small state-and-exception
      monad over the process state and the remote services (Drive,
      PostgreSQL, Sheets).
    - [Geo]: [calculateDistance] and the ranking done by the client page
      [SelectionPage] over the catalog [SUBSTATIONS].  JavaScript numbers
      are idealised as real numbers there, so [NaN] and rounding are outside
      the model. *)

From Stdlib Require Import Reals Lra.
From Stdlib Require Import ZArith Lia Ascii String Sorted.
From stdpp Require Import gmap strings list pretty.

Set Warnings "-register-all".

(* ===================================================================== *)
(** * Sorting with a comparator                                           *)
(* ===================================================================== *)

(** Both [Array.prototype.sort] (stable since ES2019) and SQL's [ORDER BY]
    are modelled by a stable insertion sort.  [before x y = true] says that
    [x] may stay in front of [y]. *)
Section Sorting.
Context {A : Type} (before : A -> A -> bool).

Fixpoint insert_by (x : A) (l : list A) : list A :=
  match l with
  | [] => [x]
  | y :: rest => if before x y then x :: y :: rest else y :: insert_by x rest
  end.

Fixpoint sort_by (l : list A) : list A :=
  match l with
  | [] => []
  | x :: rest => insert_by x (sort_by rest)
  end.
End Sorting.

(* ===================================================================== *)
(** * Part I: the server                                                  *)
(* ===================================================================== *)

Module Server.

Local Open Scope Z_scope.
Local Open Scope string_scope.

(** ** JavaScript values that reach the wire *)

(** PostgreSQL [TIMESTAMP] values.  [EXTRACT(YEAR ...)] and
    [EXTRACT(MONTH ...)] are the first two fields; [ts_rest] is the position
    inside the month (microseconds).  [ORDER BY timestamp] compares the three
    fields lexicographically. *)
Record Timestamp := mkTimestamp {
  ts_year : Z;
  ts_month : Z;
  ts_rest : Z
}.

(** A row of [inspection_logs] (table created by [initDb]).  The two GPS
    columns keep the text the handler passed to the driver. *)
Record LogRow := mkLogRow {
  row_id : Z;
  employee_id : string;
  substation_name : string;
  timestamp : Timestamp;
  gps_lat : option string;
  gps_lng : option string;
  folder_id : string;
  status : string
}.

(** What [res.json] is given. [JDate] stands for a [Date] object. *)
Inductive json :=
| JNull
| JBool (b : bool)
| JNum (n : Z)
| JStr (s : string)
| JDate (t : Timestamp)
| JArr (items : list json)
| JObj (fields : list (string * json)).

(** Property lookup on an object: the first binding of [k]. *)
Fixpoint assoc (k : string) (fields : list (string * json)) : option json :=
  match fields with
  | [] => None
  | (k', v) :: rest => if String.eqb k k' then Some v else assoc k rest
  end.

Definition field (k : string) (j : json) : option json :=
  match j with
  | JObj fields => assoc k fields
  | _ => None
  end.

Definition json_of_text (o : option string) : json :=
  match o with Some s => JStr s | None => JNull end.

Definition row_json (r : LogRow) : json :=
  JObj [ ("id", JNum (row_id r));
         ("employee_id", JStr (employee_id r));
         ("substation_name", JStr (substation_name r));
         ("timestamp", JDate (timestamp r));
         ("gps_lat", json_of_text (gps_lat r));
         ("gps_lng", json_of_text (gps_lng r));
         ("folder_id", JStr (folder_id r));
         ("status", JStr (status r)) ].

(** An HTTP answer: [res.json(b)] has status 200, [res.status(c).json(b)]
    has status [c]. *)
Record Response := mkResponse {
  http_status : Z;
  body : json
}.

Definition res_json (b : json) : Response := mkResponse 200 b.
Definition res_status_json (c : Z) (b : json) : Response := mkResponse c b.

(** ** Requests *)

(** An uploaded part as multer's memory storage hands it over. *)
Record UploadedFile := mkFile {
  originalname : string;
  mimetype : string;
  buffer : string
}.

(** [req.body] and [req.files] of a multipart submission.  A form field is
    a string or is absent ([undefined]). *)
Record Submission := mkSubmission {
  employeeId : option string;
  substationName : option string;
  lat : option string;
  lng : option string;
  client_timestamp : option string;
  files : list UploadedFile
}.

(** [req.query] of the dashboard route. *)
Record StatsQuery := mkStatsQuery {
  month : option string;
  year : option string
}.

(** ** JavaScript string helpers *)

(** A template literal prints an absent field as the text [undefined]. *)
Definition interpolate (o : option string) : string :=
  match o with Some s => s | None => "undefined" end.

(** Truthiness of a string-or-undefined value. *)
Definition truthy (o : option string) : bool :=
  match o with
  | Some s => negb (String.eqb s "")
  | None => false
  end.

(** [x || d] on such a value. *)
Definition or_default (o : option string) (d : string) : string :=
  match o with
  | Some s => if String.eqb s "" then d else s
  | None => d
  end.

Definition is_space (c : Ascii.ascii) : bool :=
  let n := Ascii.nat_of_ascii c in
  (n =? 32)%nat || ((9 <=? n)%nat && (n <=? 13)%nat).

Fixpoint trim_start (s : string) : string :=
  match s with
  | String c rest => if is_space c then trim_start rest else s
  | EmptyString => EmptyString
  end.

Fixpoint trim_end (s : string) : string :=
  match s with
  | String c rest =>
      match trim_end rest with
      | EmptyString => if is_space c then EmptyString else String c EmptyString
      | t => String c t
      end
  | EmptyString => EmptyString
  end.

(** [String.prototype.trim] (on the ASCII blanks). *)
Definition trim (s : string) : string := trim_end (trim_start s).

(** ** Configuration, process state and the remote services *)

(** [process.env], read-only after start-up. *)
Record Env := mkEnv {
  DATABASE_URL : option string;
  GOOGLE_REFRESH_TOKEN : option string;
  GOOGLE_DRIVE_SERVICE_ACCOUNT_JSON : option string;
  GOOGLE_DRIVE_PARENT_FOLDER_ID : option string;
  GOOGLE_SHEET_ID : option string
}.

(** Library functions of the host that the routes call and whose code is
    not part of the repository: whether [JSON.parse] and the JWT constructor
    accept the service-account text, and the two [th-TH] renderings of the
    submission date (from the [timestamp] field, or from the current time
    when the field is absent). *)
Record Host := mkHost {
  JSON_parses : string -> bool;
  th_dateStr : option string -> Z -> string;
  th_dateTimeStr : option string -> Z -> string
}.

(** Module-level variables of [server.ts].  The three singletons are [null]
    until first created. *)
Record Proc := mkProc {
  recentSubmissions : gmap string Z;
  dbClient : bool;
  drive : bool;
  sheets : bool
}.

Definition FOLDER_MIME : string := "application/vnd.google-apps.folder".

Record DriveItem := mkDriveItem {
  item_id : string;
  item_name : string;
  item_mime : string;
  item_parent : string;
  item_trashed : bool;
  item_body : string
}.

(** Every call that leaves the process. *)
Inductive Event :=
| EvDriveList (name parent : string)
| EvDriveCreateFolder (name parent : string)
| EvDriveUpload (name mime parent : string)
| EvDbConnect
| EvDbCreateTable
| EvDbInsert (employee : string) (substation lat lng : option string)
             (folder : string)
| EvDbSelect (params : list string)
| EvDbCount (params : list string)
| EvSheetsAppend (sheet : string) (row : list string).

(** The remote services.  [faults] scripts the outcome of the coming remote
    calls, one entry per call: [Some msg] makes the call reject with an
    [Error] of that message, [None] (or an exhausted script) lets it
    through.  [trace] records the calls made, oldest first. *)
Record World := mkWorld {
  drive_items : list DriveItem;
  drive_next : nat;
  db_rows : list LogRow;
  db_serial : Z;
  db_clock : Timestamp;
  sheet_rows : list (list string);
  faults : list (option string);
  trace : list Event
}.

Record State := mkState {
  proc : Proc;
  world : World
}.

Definition set_recentSubmissions (m : gmap string Z) (s : State) : State :=
  let p := proc s in
  mkState (mkProc m (dbClient p) (drive p) (sheets p)) (world s).

Definition set_dbClient (b : bool) (s : State) : State :=
  let p := proc s in
  mkState (mkProc (recentSubmissions p) b (drive p) (sheets p)) (world s).

Definition set_drive (b : bool) (s : State) : State :=
  let p := proc s in
  mkState (mkProc (recentSubmissions p) (dbClient p) b (sheets p)) (world s).

Definition set_sheets (b : bool) (s : State) : State :=
  let p := proc s in
  mkState (mkProc (recentSubmissions p) (dbClient p) (drive p) b) (world s).

Definition set_world (w : World) (s : State) : State := mkState (proc s) w.

(** ** The monad of the handlers: state and exceptions *)

Inductive outcome (A : Type) :=
| Ok (a : A)
| Throw (msg : string).
Arguments Ok {A} a.
Arguments Throw {A} msg.

Definition M (A : Type) : Type := State -> outcome A * State.

Definition ret {A} (a : A) : M A := fun s => (Ok a, s).

Definition throw {A} (msg : string) : M A := fun s => (Throw msg, s).

Definition bind {A B} (m : M A) (k : A -> M B) : M B :=
  fun s =>
    match m s with
    | (Ok a, s') => k a s'
    | (Throw e, s') => (Throw e, s')
    end.

(** [try { m } catch (err) { h err.message }] *)
Definition try_catch {A} (m : M A) (h : string -> M A) : M A :=
  fun s =>
    match m s with
    | (Ok a, s') => (Ok a, s')
    | (Throw e, s') => h e s'
    end.

Notation "'let*' x ':=' m 'in' k" := (bind m (fun x => k))
  (at level 10, x name, m at level 100, k at level 200).

(** [for (const x of l) { await f x }] *)
Fixpoint for_of {A} (l : list A) (f : A -> M unit) : M unit :=
  match l with
  | [] => ret tt
  | x :: rest => let* _ := f x in for_of rest f
  end.

(** A remote call: it is logged, consumes one entry of the fault script and,
    unless that entry rejects it, acts on the remote state. *)
Definition record_call (ev : Event) (w : World) : World :=
  mkWorld (drive_items w) (drive_next w) (db_rows w) (db_serial w)
          (db_clock w) (sheet_rows w) (tail (faults w)) (trace w ++ [ev]).

Definition remote {A} (ev : Event) (act : World -> outcome A * World) : M A :=
  fun s =>
    let w := world s in
    match head (faults w) with
    | Some (Some msg) => (Throw msg, set_world (record_call ev w) s)
    | _ => let '(r, w') := act (record_call ev w) in (r, set_world w' s)
    end.

(** ** The three remote services *)

(** [driveService.files.list] with the query of the handler: folders of the
    given name directly under [parent], trashed ones excluded.  (The handler
    builds the query text by interpolation; the model keeps its two
    arguments.) *)
Definition folder_matches (name parent : string) (it : DriveItem) : bool :=
  String.eqb (item_name it) name && String.eqb (item_mime it) FOLDER_MIME
  && String.eqb (item_parent it) parent && negb (item_trashed it).

Definition drive_files_list (name parent : string) : M (list string) :=
  remote (EvDriveList name parent)
    (fun w => (Ok (map item_id (filter (fun it => folder_matches name parent it)
                                       (drive_items w))), w)).

(** Name Drive gives to an item created without one. *)
Definition UNTITLED : string := "Untitled".

Definition fresh_drive_id (n : nat) : string := "drive-" +:+ pretty n.

Definition drive_add (it : DriveItem) (w : World) : World :=
  mkWorld (drive_items w ++ [it]) (S (drive_next w)) (db_rows w) (db_serial w)
          (db_clock w) (sheet_rows w) (faults w) (trace w).

(** [driveService.files.create] of a folder; answers the new identifier. *)
Definition drive_files_create_folder (name parent : string) : M string :=
  remote (EvDriveCreateFolder name parent)
    (fun w =>
       let id := fresh_drive_id (drive_next w) in
       (Ok id, drive_add (mkDriveItem id name FOLDER_MIME parent false "") w)).

(** [driveService.files.create] of one uploaded file. *)
Definition drive_files_create_media (f : UploadedFile) (parent : string)
  : M unit :=
  remote (EvDriveUpload (originalname f) (mimetype f) parent)
    (fun w =>
       let id := fresh_drive_id (drive_next w) in
       (Ok tt, drive_add (mkDriveItem id (originalname f) (mimetype f) parent
                                      false (buffer f)) w)).

(** The [INSERT INTO inspection_logs] statement.  [timestamp] and [status]
    take their column defaults; [substation_name] is [NOT NULL]. *)
Definition db_insert (employee : string) (substation la lo : option string)
                     (folder : string) : M unit :=
  remote (EvDbInsert employee substation la lo folder)
    (fun w =>
       match substation with
       | None =>
           (Throw "null value in column substation_name violates not-null constraint", w)
       | Some sn =>
           let id := db_serial w + 1 in
           let row := mkLogRow id employee sn (db_clock w) la lo folder
                               "completed" in
           (Ok tt, mkWorld (drive_items w) (drive_next w) (db_rows w ++ [row])
                           id (db_clock w) (sheet_rows w) (faults w) (trace w))
       end).

(** Text of a query parameter read as an integer: an optional minus sign
    and decimal digits. *)
Definition digit_of (c : Ascii.ascii) : option Z :=
  let n := Ascii.nat_of_ascii c in
  if ((48 <=? n)%nat && (n <=? 57)%nat)%bool then Some (Z.of_nat n - 48)
  else None.

Fixpoint digits_from (acc : Z) (s : string) : option Z :=
  match s with
  | EmptyString => Some acc
  | String c rest =>
      match digit_of c with
      | Some d => digits_from (10 * acc + d) rest
      | None => None
      end
  end.

Definition pg_integer (s : string) : option Z :=
  match s with
  | EmptyString => None
  | String "-"%char EmptyString => None
  | String "-"%char rest => option_map Z.opp (digits_from 0 rest)
  | _ => digits_from 0 s
  end.

(** [EXTRACT(MONTH FROM timestamp) = m AND EXTRACT(YEAR FROM timestamp) = y] *)
Definition in_month (m y : Z) (r : LogRow) : bool :=
  Z.eqb (ts_month (timestamp r)) m && Z.eqb (ts_year (timestamp r)) y.

(** The [WHERE] clause: none without parameters, month and year with two. *)
Definition where_clause (params : list string)
  : option (LogRow -> bool) :=
  match params with
  | [] => Some (fun _ => true)
  | [m; y] =>
      match pg_integer m, pg_integer y with
      | Some mz, Some yz => Some (in_month mz yz)
      | _, _ => None
      end
  | _ => None
  end.

Definition ts_leb (a b : Timestamp) : bool :=
  Z.ltb (ts_year a) (ts_year b)
  || (Z.eqb (ts_year a) (ts_year b)
      && (Z.ltb (ts_month a) (ts_month b)
          || (Z.eqb (ts_month a) (ts_month b)
              && Z.leb (ts_rest a) (ts_rest b)))).

(** [ORDER BY timestamp DESC]: a row stays in front of rows that are not
    later than it. *)
Definition newer_first (a b : LogRow) : bool :=
  ts_leb (timestamp b) (timestamp a).

(** [SELECT * FROM inspection_logs [WHERE ...] ORDER BY timestamp DESC
    LIMIT 100] *)
Definition db_select (params : list string) : M (list LogRow) :=
  remote (EvDbSelect params)
    (fun w =>
       match where_clause params with
       | Some p => (Ok (take 100 (sort_by newer_first (filter (fun r => p r) (db_rows w)))), w)
       | None => (Throw "invalid input syntax for type numeric", w)
       end).

(** [SELECT COUNT(DISTINCT substation_name) FROM inspection_logs [WHERE ...]],
    read back with [parseInt]. *)
Definition db_count_distinct (params : list string) : M Z :=
  remote (EvDbCount params)
    (fun w =>
       match where_clause params with
       | Some p =>
           (Ok (Z.of_nat (length (remove_dups
                   (map substation_name (filter (fun r => p r) (db_rows w)))))), w)
       | None => (Throw "invalid input syntax for type numeric", w)
       end).

(** [sheetsService.spreadsheets.values.append] of one row. *)
Definition sheets_append (sheet : string) (row : list string) : M unit :=
  remote (EvSheetsAppend sheet row)
    (fun w =>
       (Ok tt, mkWorld (drive_items w) (drive_next w) (db_rows w) (db_serial w)
                       (db_clock w) (sheet_rows w ++ [row]) (faults w) (trace w))).

(** [client.connect()] and the [CREATE TABLE IF NOT EXISTS] of [initDb]. *)
Definition db_connect : M unit :=
  remote EvDbConnect (fun w => (Ok tt, w)).

Definition db_create_table : M unit :=
  remote EvDbCreateTable (fun w => (Ok tt, w)).

(** ** The routes of [server.ts] *)

Definition DEFAULT_PARENT_FOLDER : string := "1IzXUWJfucyb47Dr32QSVIxBKmoMrWF6J".
Definition DEFAULT_SHEET : string := "1WpvuQnhXzufiBmSRSaEnkRFs9BJf5H4fIWZ0xoYC8iw".
Definition NOT_SPECIFIED : string := "ไม่ระบุ".

Definition duplicate_reply : Response :=
  res_json (JObj [("success", JBool true);
                  ("message", JStr "Duplicate request ignored")]).

Definition success_reply (folderId : string) : Response :=
  res_json (JObj [("success", JBool true); ("folderId", JStr folderId)]).

Definition error_reply (msg : string) : Response :=
  res_status_json 500 (JObj [("error", JStr msg)]).

Definition empty_stats_reply : Response :=
  res_json (JObj [("total", JNum 0); ("recent", JArr [])]).

Definition stats_reply (total : Z) (rows : list LogRow) : Response :=
  res_json (JObj [("total", JNum total); ("recent", JArr (map row_json rows))]).

(** ** Vocabulary of the specifications *)

(** [keeps P m]: running [m] preserves the property [P] of the module-level
    variables. *)
Definition keeps {A} (P : Proc -> Prop) (m : M A) : Prop :=
  forall s, P (proc s) -> P (proc (snd (m s))).

(** [untouched_db s s']: between [s] and [s'] the process variables and
    the database did not change, and no fault is pending in [s']. *)
Definition untouched_db (s s' : State) : Prop :=
  proc s' = proc s /\
  db_rows (world s') = db_rows (world s) /\
  db_serial (world s') = db_serial (world s) /\
  db_clock (world s') = db_clock (world s) /\
  faults (world s') = [].

Section Routes.
Variables (env : Env) (host : Host).

(** [getDbClient]: the cached client, else [null] without a connection
    string, else a new client that is cached. *)
Definition getDbClient : M bool :=
  fun s =>
    if dbClient (proc s) then (Ok true, s)
    else if negb (truthy (DATABASE_URL env)) then (Ok false, s)
    else (Ok true, set_dbClient true s).

Definition initDb : M unit :=
  let* client := getDbClient in
  if negb client then ret tt
  else try_catch (let* _ := db_connect in db_create_table)
                 (fun _ => ret tt).

(** [getGoogleAuth]: the refresh token has priority over the service
    account; [true] stands for a credential object, [false] for [null]. *)
Definition getGoogleAuth : bool :=
  if truthy (GOOGLE_REFRESH_TOKEN env) then true
  else if negb (truthy (GOOGLE_DRIVE_SERVICE_ACCOUNT_JSON env)) then false
  else JSON_parses host (interpolate (GOOGLE_DRIVE_SERVICE_ACCOUNT_JSON env)).

Definition getDriveService : M bool :=
  fun s =>
    if drive (proc s) then (Ok true, s)
    else if negb getGoogleAuth then (Ok false, s)
    else (Ok true, set_drive true s).

Definition getSheetsService : M bool :=
  fun s =>
    if sheets (proc s) then (Ok true, s)
    else if negb getGoogleAuth then (Ok false, s)
    else (Ok true, set_sheets true s).

Definition get_recentSubmissions : M (gmap string Z) :=
  fun s => (Ok (recentSubmissions (proc s)), s).

Definition put_recentSubmissions (m : gmap string Z) : M unit :=
  fun s => (Ok tt, set_recentSubmissions m s).

(** "Find or Create" of one folder level.  [name] is the text spliced
    into the query, [metadataName] the [name] of the metadata sent on
    creation. *)
Definition find_or_create_folder (name metadataName parent : string)
  : M string :=
  let* found := drive_files_list name parent in
  match found with
  | id :: _ => ret id
  | [] => drive_files_create_folder metadataName parent
  end.

(** Steps 1 to 3 of the handler: main folder, daily folder, upload of
    every file.  Answers the daily folder identifier. *)
Definition store_evidence (req : Submission) (now : Z) : M string :=
  let dateStr := th_dateStr host (client_timestamp req) now in
  let parentFolderId :=
    or_default (GOOGLE_DRIVE_PARENT_FOLDER_ID env) DEFAULT_PARENT_FOLDER in
  let* mainFolderId :=
    find_or_create_folder (interpolate (substationName req))
      (default UNTITLED (substationName req)) parentFolderId in
  let dailyFolderName := interpolate (substationName req) +:+ "_" +:+ dateStr in
  let* dailyFolderId :=
    find_or_create_folder dailyFolderName dailyFolderName mainFolderId in
  let* _ := for_of (files req)
              (fun file => drive_files_create_media file dailyFolderId) in
  ret dailyFolderId.

(** "Log to Database", with its own [try]/[catch]. *)
Definition log_to_database (req : Submission) (dailyFolderId : string)
  : M unit :=
  let* client := getDbClient in
  if client then
    try_catch
      (db_insert (or_default (employeeId req) "Unknown") (substationName req)
                 (lat req) (lng req) dailyFolderId)
      (fun _ => ret tt)
  else ret tt.

(** "Log to Google Sheets", with its own [try]/[catch]. *)
Definition log_to_sheets (req : Submission) (now : Z) (dailyFolderId : string)
  : M unit :=
  let* sheetsService := getSheetsService in
  let sheetId := or_default (GOOGLE_SHEET_ID env) DEFAULT_SHEET in
  if sheetsService && negb (String.eqb sheetId "") then
    try_catch
      (let dateTimeStr := th_dateTimeStr host (client_timestamp req) now in
       let trimmed := trim (interpolate (employeeId req)) in
       let rowData :=
         [ dateTimeStr;
           (if truthy (employeeId req) && negb (String.eqb trimmed "")
            then trimmed else NOT_SPECIFIED);
           or_default (substationName req) NOT_SPECIFIED;
           or_default (lat req) "0";
           or_default (lng req) "0";
           "https://drive.google.com/drive/folders/" +:+ dailyFolderId;
           "Completed" ] in
       sheets_append sheetId rowData)
      (fun _ => ret tt)
  else ret tt.

(** The template literal of the deduplication key. *)
Definition submissionKey (req : Submission) : string :=
  interpolate (employeeId req) +:+ "-" +:+ interpolate (substationName req).

(** The handler below the deduplication check: the Drive service, then
    one [try] block around storage and the two logs. *)
Definition process_submission (req : Submission) (now : Z) : M Response :=
  let* driveService := getDriveService in
  if negb driveService then
    ret (error_reply "Google Drive service not configured")
  else
    try_catch
      (let* dailyFolderId := store_evidence req now in
       let* _ := log_to_database req dailyFolderId in
       let* _ := log_to_sheets req now dailyFolderId in
       ret (success_reply dailyFolderId))
      (fun msg => ret (error_reply msg)).

(** [POST /api/upload-inspection].  [now] is the reading of [Date.now()]
    at the start of the handler. *)
Definition upload_inspection (req : Submission) (now : Z) : M Response :=
  let* recent := get_recentSubmissions in
  if match recent !! submissionKey req with
     | Some lastTime => Z.ltb (now - lastTime) 10000
     | None => false
     end
  then ret duplicate_reply
  else
    let* _ := put_recentSubmissions (<[submissionKey req := now]> recent) in
    process_submission req now.

(** A submission is accepted when it is not answered as a duplicate. *)
Definition accepted (req : Submission) (now : Z) (s : State) : Prop :=
  fst (upload_inspection req now s) <> Ok duplicate_reply.

(** The state in which an accepted submission reaches the storage path: the
    deduplication map already holds [now]. *)
Definition past_dedupe (req : Submission) (now : Z) (s : State) : State :=
  set_recentSubmissions
    (<[submissionKey req := now]> (recentSubmissions (proc s))) s.

(** The storage path of the handler seen as one computation: obtain the
    Drive service, resolve the two folders, upload the files.  It fails
    when the service is not configured or when a Drive call rejects. *)
Definition storage_path (req : Submission) (now : Z) : M string :=
  let* driveService := getDriveService in
  if negb driveService then throw "Google Drive service not configured"
  else store_evidence req now.

(** [GET /api/dashboard-stats] *)
Definition dashboard_stats (q : StatsQuery) : M Response :=
  let* client := getDbClient in
  if negb client then ret empty_stats_reply
  else
    try_catch
      (let params :=
         if truthy (month q) && truthy (year q)
         then [interpolate (month q); interpolate (year q)] else [] in
       let* rows := db_select params in
       let* count := db_count_distinct params in
       ret (stats_reply count rows))
      (fun _ => ret (error_reply "Failed to fetch stats")).

(** [GET /api/health] *)
Definition health : M Response :=
  ret (res_json (JObj [("status", JStr "ok");
                       ("message", JStr "SSVI API is running")])).

(** ** Runs of the process *)

Inductive Request :=
| GetHealth
| PostUploadInspection (req : Submission) (now : Z)
| GetDashboardStats (q : StatsQuery).

Definition handle (r : Request) : M Response :=
  match r with
  | GetHealth => health
  | PostUploadInspection req now => upload_inspection req now
  | GetDashboardStats q => dashboard_stats q
  end.

(** Requests served one after the other. *)
Fixpoint serve (rs : list Request) (s : State) : State :=
  match rs with
  | [] => s
  | r :: rest => serve rest (snd (handle r s))
  end.

(** Whether a request is a submission with the given deduplication key. *)
Definition submits_key (key : string) (r : Request) : bool :=
  match r with
  | PostUploadInspection req _ => String.eqb (submissionKey req) key
  | _ => false
  end.

Definition boot (w : World) : State :=
  mkState (mkProc ∅ false false false) w.

(** States the process can be in: it starts with an empty map and no
    singleton, may run [initDb], serves requests one after the other, and
    the remote services may change between two requests.  (The two OAuth
    routes build their own client and touch none of the module variables;
    they are left out.) *)
Inductive reachable : State -> Prop :=
| reach_boot w : reachable (boot w)
| reach_initDb s : reachable s -> reachable (snd (initDb s))
| reach_handle s r : reachable s -> reachable (snd (handle r s))
| reach_world s w : reachable s -> reachable (set_world w s).

End Routes.

(** ** Sample configuration and requests *)

Definition sample_env : Env :=
  mkEnv (Some "postgres://inspector@db/ssvi") (Some "refresh-token") None None None.

Definition sample_env_without_db : Env :=
  mkEnv None (Some "refresh-token") None None None.

Definition sample_host : Host :=
  mkHost (fun _ => true) (fun _ _ => "250269")
         (fun _ _ => "25/2/2569 10:00:00").

Definition sample_world (script : list (option string)) : World :=
  mkWorld [] 0 [] 0 (mkTimestamp 2026 2 2100000) [] script [].

(** A log with two February 2026 submissions for one substation and one
    January submission for another. *)
Definition sample_log : list LogRow :=
  [ mkLogRow 1 "123456" "ด่านช้าง" (mkTimestamp 2026 1 900000) (Some "14.838")
             (Some "99.695") "drive-1" "completed";
    mkLogRow 2 "123456" "สามชุก" (mkTimestamp 2026 2 100000) (Some "14.755")
             (Some "100.095") "drive-3" "completed";
    mkLogRow 3 "654321" "สามชุก" (mkTimestamp 2026 2 700000) (Some "14.755")
             (Some "100.095") "drive-5" "completed" ].

Definition sample_log_world : World :=
  mkWorld [] 6 sample_log 3 (mkTimestamp 2026 2 2100000) [] [] [].

(** Other requests: a health check, a dashboard query, a submission of the
    same worker for another substation. *)
Definition sample_traffic : list Request :=
  [ GetHealth;
    GetDashboardStats (mkStatsQuery (Some "2") (Some "2026"));
    PostUploadInspection
      (mkSubmission (Some "123456") (Some "ด่านช้าง") (Some "14.838")
                    (Some "99.695") None []) 2000 ].

Definition sample_submission : Submission :=
  mkSubmission (Some "123456") (Some "สามชุก") (Some "14.755") (Some "100.095")
               None
               [mkFile "fixed_1_1000_250269.jpg" "image/jpeg" "<jpeg bytes>"].

End Server.

(* ===================================================================== *)
(** * Part II: the substation selection page                              *)
(* ===================================================================== *)

Module Geo.

Local Open Scope R_scope.

(** An entry of the static catalog ([constants.ts]). *)
Record Substation := mkSubstation {
  id : string;
  name : string;
  lat : R;
  lng : R
}.

Definition SUBSTATIONS : list Substation :=
  [ mkSubstation "sam-chuk" "สามชุก" 14.755 100.095;
    mkSubstation "si-prachan" "ศรีประจันต์" 14.625 100.142;
    mkSubstation "dan-chang" "ด่านช้าง" 14.838 99.695;
    mkSubstation "doem-bang" "เดิมบางนางบวช" 14.855 100.045;
    mkSubstation "suphan-buri-1" "สุพรรณบุรี 1" 14.475 100.122;
    mkSubstation "suphan-buri-2" "สุพรรณบุรี 2" 14.455 100.105 ].

(** [typeof SUBSTATIONS[0] & { distance?: number }] *)
Record Ranked := mkRanked {
  station : Substation;
  distance : option R
}.

(** [Math.atan2] on real numbers. *)
Definition Math_atan2 (y x : R) : R :=
  if Rlt_dec 0 x then atan (y / x)
  else if Rlt_dec x 0 then
    if Rle_dec 0 y then atan (y / x) + PI else atan (y / x) - PI
  else if Rlt_dec 0 y then PI / 2
  else if Rlt_dec y 0 then - (PI / 2)
  else 0.

(** Haversine formula; the result is in kilometres. *)
Definition calculateDistance (lat1 lon1 lat2 lon2 : R) : R :=
  let R_km := 6371 in
  let dLat := (lat2 - lat1) * PI / 180 in
  let dLon := (lon2 - lon1) * PI / 180 in
  let a :=
    sin (dLat / 2) * sin (dLat / 2) +
    cos (lat1 * PI / 180) * cos (lat2 * PI / 180) *
    sin (dLon / 2) * sin (dLon / 2) in
  let c := 2 * Math_atan2 (sqrt a) (sqrt (1 - a)) in
  R_km * c.

(** Truthiness of a number-or-undefined value: [undefined] and zero are
    falsy. *)
Definition number_truthy (d : option R) : bool :=
  match d with
  | Some x => if Req_dec_T x 0 then false else true
  | None => false
  end.

(** [d || 0] *)
Definition or_zero (d : option R) : R :=
  match d with
  | Some x => if number_truthy d then x else 0
  | None => 0
  end.

Definition Rle_bool (x y : R) : bool := if Rle_dec x y then true else false.

(** The comparator [(a, b) => (a.distance || 0) - (b.distance || 0)] and the
    order it induces in [sort]: [a] stays in front of [b] unless the
    comparator is positive. *)
Definition compareDistance (a b : Ranked) : R :=
  or_zero (distance a) - or_zero (distance b).

Definition stays_before (a b : Ranked) : bool :=
  Rle_bool (compareDistance a b) 0.

(** State of [SelectionPage] (the three [useState] cells). *)
Record SelectionState := mkSelectionState {
  sortedSubstations : list Ranked;
  loading : bool;
  nearestSub : option Ranked
}.

Definition initialState (catalog : list Substation) : SelectionState :=
  mkSelectionState (map (fun sub => mkRanked sub None) catalog) true None.

(** Success callback of [getCurrentPosition].  On an empty catalog
    [sorted[0].distance] raises a [TypeError] after [setSortedSubstations]:
    the two later setters are not reached. *)
Definition withDistance (catalog : list Substation) (latitude longitude : R)
  : list Ranked :=
  map (fun sub =>
         let km := calculateDistance latitude longitude (lat sub) (lng sub) in
         mkRanked sub (Some km))
      catalog.

Definition onPosition (catalog : list Substation) (latitude longitude : R)
                      (st : SelectionState) : SelectionState :=
  let sorted := sort_by stays_before (withDistance catalog latitude longitude) in
  match sorted with
  | [] => mkSelectionState sorted (loading st) (nearestSub st)
  | first :: _ =>
      let detected :=
        number_truthy (distance first) && Rle_bool (or_zero (distance first)) 2 in
      mkSelectionState sorted false
        (if detected then Some first else nearestSub st)
  end.

(** Error callback of [getCurrentPosition]. *)
Definition onPositionError (st : SelectionState) : SelectionState :=
  mkSelectionState (sortedSubstations st) false (nearestSub st).

(** Values derived on every render. *)
Definition within_10 (sub : Ranked) : bool :=
  match distance sub with
  | Some d => Rle_bool d 10
  | None => false
  end.

Definition nearbySubstations (st : SelectionState) : list Ranked :=
  filter (fun sub => within_10 sub) (sortedSubstations st).

Definition displayNearby (st : SelectionState) : list Ranked :=
  if (0 <? length (nearbySubstations st))%nat then nearbySubstations st
  else take 3 (sortedSubstations st).

(** The distance the page computes for an entry, seen from the device. *)
Definition distanceFrom (latitude longitude : R) (r : Ranked) : R :=
  calculateDistance latitude longitude (lat (station r)) (lng (station r)).

Definition otherSubstations (st : SelectionState) : list Ranked :=
  filter (fun sub =>
            negb (existsb (fun n => String.eqb (id (station n)) (id (station sub)))
                          (displayNearby st)))
         (sortedSubstations st).

End Geo.

(* ===================================================================== *)
(** * Part III: more of the server                                        *)
(* ===================================================================== *)

Module ServerParts.
Import Server.

Local Open Scope Z_scope.
Local Open Scope string_scope.

Section Parts.
Variables (env : Env) (host : Host).

(** Steps 1 and 2 of the upload handler on their own: the substation folder
    under the configured parent, then the daily folder inside it. *)
Definition resolve_folders (req : Submission) (now : Z) : M string :=
  let dateStr := th_dateStr host (client_timestamp req) now in
  let parentFolderId :=
    or_default (GOOGLE_DRIVE_PARENT_FOLDER_ID env) DEFAULT_PARENT_FOLDER in
  let* mainFolderId :=
    find_or_create_folder (interpolate (substationName req))
      (default UNTITLED (substationName req)) parentFolderId in
  let dailyFolderName := interpolate (substationName req) +:+ "_" +:+ dateStr in
  find_or_create_folder dailyFolderName dailyFolderName mainFolderId.

(** Step 3 on its own: the upload loop. *)
Definition upload_files (l : list UploadedFile) (dailyFolderId : string)
  : M unit :=
  for_of l (fun file => drive_files_create_media file dailyFolderId).

End Parts.

(** ** Vocabulary *)

(** [respects R m]: whatever the state, the remote stores before and after
    [m] are related by [R]. *)
Definition respects {A} (R : World -> World -> Prop) (m : M A) : Prop :=
  forall s, R (world s) (world (snd (m s))).

(** The three stores only grow at the end. *)
Definition append_only (w w' : World) : Prop :=
  drive_items w `prefix_of` drive_items w' /\
  db_rows w `prefix_of` db_rows w' /\
  sheet_rows w `prefix_of` sheet_rows w'.

(** The three stores are the same. *)
Definition same_stores (w w' : World) : Prop :=
  drive_items w' = drive_items w /\
  db_rows w' = db_rows w /\
  db_serial w' = db_serial w /\
  sheet_rows w' = sheet_rows w.

(** One component of the remote state is the same. *)
Definition same_on {B} (f : World -> B) (w w' : World) : Prop := f w' = f w.

(** The Drive item that the upload of [f] into [parent] leaves. *)
Definition stored_as (parent : string) (f : UploadedFile) (it : DriveItem)
  : Prop :=
  item_name it = originalname f /\ item_mime it = mimetype f /\
  item_parent it = parent /\ item_body it = buffer f /\
  item_trashed it = false.

(** The folders among the Drive items. *)
Definition folders (w : World) : list DriveItem :=
  filter (fun it => String.eqb (item_mime it) FOLDER_MIME) (drive_items w).

(** ** Sample data *)

Definition env_without_credentials : Env :=
  mkEnv (Some "postgres://inspector@db/ssvi") None None None None.

Definition two_photos : Submission :=
  mkSubmission (Some "123456") (Some "สามชุก") (Some "14.755") (Some "100.095")
               None
               [mkFile "building_1_1000_250269.jpg" "image/jpeg" "<first>";
                mkFile "yard_1_1000_250269.jpg" "image/jpeg" "<second>"].

(** ** The OAuth client *)

Record OAuthEnv := mkOAuthEnv {
  APP_URL : option string;
  GOOGLE_REDIRECT_URI : option string;
  GOOGLE_CLIENT_ID : option string;
  GOOGLE_CLIENT_SECRET : option string
}.

(** [s.replace(/\/$/, '')]: one slash at the very end is dropped. *)
Fixpoint strip_trailing_slash (s : string) : string :=
  match s with
  | EmptyString => EmptyString
  | String c EmptyString =>
      if Ascii.eqb c "/" then EmptyString else String c EmptyString
  | String c rest => String c (strip_trailing_slash rest)
  end.

Definition CALLBACK_PATH : string := "/api/auth/google/callback".

(** The redirect URI that [getOAuth2Client] hands to the OAuth2 client. *)
Definition redirectUri (e : OAuthEnv) : string :=
  let appUrl := strip_trailing_slash (or_default (APP_URL e) "") in
  or_default (GOOGLE_REDIRECT_URI e) (appUrl +:+ CALLBACK_PATH).

End ServerParts.

(* ===================================================================== *)
(** * Part IV: the client pages                                           *)
(* ===================================================================== *)

Module Client.

Local Open Scope string_scope.

(** ** LoginPage *)

Definition is_digit (c : Ascii.ascii) : bool :=
  let n := Ascii.nat_of_ascii c in (48 <=? n)%nat && (n <=? 57)%nat.

(** [value.replace(/\D/g, '')] *)
Fixpoint strip_non_digits (s : string) : string :=
  match s with
  | EmptyString => EmptyString
  | String c rest =>
      if is_digit c then String c (strip_non_digits rest)
      else strip_non_digits rest
  end.

(** The [onChange] handler of the input: the new [id] state. *)
Definition onChange (value : string) : string := strip_non_digits value.

(** [handleSubmit]: the identifier handed to [onLogin], if any. *)
Definition handleSubmit (id : string) : option string :=
  if (String.length id =? 6)%nat then Some id else None.

Fixpoint all_digits (s : string) : bool :=
  match s with
  | EmptyString => true
  | String c rest => is_digit c && all_digits rest
  end.

(** ** App *)

Inductive View := Selection | Inspection | Dashboard | Success.

(** The three [useState] cells of [App] and the [ssvi_user] entry of
    [localStorage]. *)
Record AppState := mkAppState {
  stored_user : option string;
  user : option string;
  view : View;
  selectedSub : option Geo.Substation
}.

(** First render: [user] is read from [localStorage]. *)
Definition initialApp (stored : option string) : AppState :=
  mkAppState stored stored Selection None.

Definition handleLogin (id : string) (st : AppState) : AppState :=
  mkAppState (Some id) (Some id) (view st) (selectedSub st).

Definition handleLogout (st : AppState) : AppState :=
  mkAppState None None Selection (selectedSub st).

Definition setView (v : View) (st : AppState) : AppState :=
  mkAppState (stored_user st) (user st) v (selectedSub st).

Definition onSelect (sub : Geo.Substation) (st : AppState) : AppState :=
  mkAppState (stored_user st) (user st) Inspection (Some sub).

(** What [App] renders. *)
Inductive Screen :=
| ShowLogin
| ShowSelection
| ShowInspection (substation : Geo.Substation) (employeeId : string)
| ShowDashboard
| ShowSuccess
| ShowNothing.

Definition render (st : AppState) : Screen :=
  if negb (Server.truthy (user st)) then ShowLogin
  else
    match view st with
    | Selection => ShowSelection
    | Inspection =>
        match selectedSub st with
        | Some sub => ShowInspection sub (Server.interpolate (user st))
        | None => ShowNothing
        end
    | Dashboard => ShowDashboard
    | Success => ShowSuccess
    end.

(** What the user can do; an action whose control is not on the screen
    does nothing.  [UploadSucceeded] is the call of [onComplete] when the
    upload is answered: it may arrive after the inspection page was left. *)
Inductive Action :=
| SubmitLoginForm (value : string)
| ClickLogout
| ClickStation (sub : Geo.Substation)
| ClickDashboard
| ClickBack
| UploadSucceeded
| ClickHome.

Definition step (st : AppState) (a : Action) : AppState :=
  match render st, a with
  | ShowLogin, SubmitLoginForm value =>
      match handleSubmit (onChange value) with
      | Some id => handleLogin id st
      | None => st
      end
  | ShowSelection, ClickLogout => handleLogout st
  | ShowSelection, ClickStation sub => onSelect sub st
  | ShowSelection, ClickDashboard => setView Dashboard st
  | ShowInspection _ _, ClickBack => setView Selection st
  | _, UploadSucceeded => setView Success st
  | ShowDashboard, ClickBack => setView Selection st
  | ShowSuccess, ClickHome => setView Selection st
  | _, _ => st
  end.

Definition run (stored : option string) (actions : list Action) : AppState :=
  foldl step (initialApp stored) actions.

Definition is_blank (s : Screen) : bool :=
  match s with ShowNothing => true | _ => false end.

(** ** InspectionPage *)

(** A [File] or [Blob] of the browser. *)
Record ClientFile := mkClientFile {
  file_type : string;
  file_content : string
}.

(** The [photos] state: one list per fixed point, in the order
    [Object.entries] enumerates them. *)
Record Photos := mkPhotos {
  building : list ClientFile;
  yard : list ClientFile;
  roof : list ClientFile
}.

Definition entries (p : Photos) : list (string * list ClientFile) :=
  [("building", building p); ("yard", yard p); ("roof", roof p)].

(** [handleCapture key] once the user picked [file]. *)
Definition addPhoto (key : string) (file : ClientFile) (p : Photos) : Photos :=
  if String.eqb key "building" then mkPhotos (building p ++ [file]) (yard p) (roof p)
  else if String.eqb key "yard" then mkPhotos (building p) (yard p ++ [file]) (roof p)
  else if String.eqb key "roof" then mkPhotos (building p) (yard p) (roof p ++ [file])
  else p.

(** [l.filter((_, idx) => idx !== i)] *)
Definition removeAt {A} (i : nat) (l : list A) : list A :=
  omap (fun x => x) (imap (fun idx x => if (idx =? i)%nat then None else Some x) l).

Definition isReady (p : Photos) (checklists : list ClientFile) : bool :=
  (0 <? length (building p))%nat && (0 <? length (yard p))%nat
  && (0 <? length (roof p))%nat && (0 <? length checklists)%nat.

(** The name given to the [i]-th file (counted from 0) of a group. *)
Definition partName (key : string) (i : nat) (nameSuffix : string) : string :=
  key +:+ "_" +:+ pretty (i + 1)%nat +:+ "_" +:+ nameSuffix +:+ ".jpg".

(** [appendCompressed]: the stamped and compressed image under [name], or
    the original file under the same name when the processing fails.
    [process] is the canvas stamping followed by the compression library;
    [None] stands for a rejection of either. *)
Definition appendCompressed (process : ClientFile -> option ClientFile)
                            (file : ClientFile) (name : string)
  : Server.UploadedFile :=
  match process file with
  | Some compressed =>
      Server.mkFile name (file_type compressed) (file_content compressed)
  | None => Server.mkFile name (file_type file) (file_content file)
  end.

(** The [photos] parts of the form, in the order they are appended. *)
Definition photoParts (process : ClientFile -> option ClientFile)
                      (p : Photos) (checklists : list ClientFile)
                      (nameSuffix : string) : list Server.UploadedFile :=
  flat_map (fun '(key, l) =>
              imap (fun i file =>
                      appendCompressed process file (partName key i nameSuffix))
                   l)
           (entries p)
  ++ imap (fun i file =>
             appendCompressed process file (partName "checklist" i nameSuffix))
          checklists.

(** The form that [handleSubmit] posts.  [location] holds the two
    coordinates already printed by [toString]; [iso] is
    [new Date().toISOString()]. *)
Definition buildForm (process : ClientFile -> option ClientFile)
                     (employeeId : string) (substation : Geo.Substation)
                     (location : option (string * string)) (iso : string)
                     (p : Photos) (checklists : list ClientFile)
                     (nameSuffix : string) : Server.Submission :=
  Server.mkSubmission
    (Some employeeId)
    (Some (Geo.name substation))
    (Some (Server.or_default (option_map fst location) "0"))
    (Some (Server.or_default (option_map snd location) "0"))
    (Some iso)
    (photoParts process p checklists nameSuffix).

(** ** DashboardPage *)

(** [stats.recent.some(log => log.substation_name === sub.name)] *)
Definition hasLog (recent : list Server.LogRow) (sub : Geo.Substation) : bool :=
  existsb (fun log => String.eqb (Server.substation_name log) (Geo.name sub))
          recent.

Definition pendingSubstations (catalog : list Geo.Substation)
                              (recent : list Server.LogRow)
  : list Geo.Substation :=
  filter (fun sub => negb (hasLog recent sub)) catalog.

(** [stats.recent.find(log => log.substation_name === sub.name)] *)
Definition latestLog (recent : list Server.LogRow) (sub : Geo.Substation)
  : option Server.LogRow :=
  List.find (fun log => String.eqb (Server.substation_name log) (Geo.name sub))
            recent.

Definition inspectedSubstations (catalog : list Geo.Substation)
                                (recent : list Server.LogRow)
  : list (Geo.Substation * option Server.LogRow) :=
  map (fun sub => (sub, latestLog recent sub))
      (filter (fun sub => hasLog recent sub) catalog).

(** The query the page sends for the selected month (0 to 11) and year. *)
Definition statsQuery (selectedMonth selectedYear : nat) : Server.StatsQuery :=
  Server.mkStatsQuery (Some (pretty (selectedMonth + 1)%nat))
                      (Some (pretty selectedYear)).

(** The number on the "pending" card: [SUBSTATIONS.length - stats.total]. *)
Definition pendingCard (catalog : list Geo.Substation) (total : Z) : Z :=
  (Z.of_nat (length catalog) - total)%Z.

(** ** Sample data *)

Definition sample_station : Geo.Substation :=
  Geo.mkSubstation "sam-chuk" "สามชุก" 14.755%R 100.095%R.

Definition sample_photos : Photos :=
  mkPhotos [mkClientFile "image/jpeg" "<building>"]
           [mkClientFile "image/jpeg" "<yard>"]
           [mkClientFile "image/jpeg" "<roof>"].

Definition sample_checklists : list ClientFile :=
  [mkClientFile "image/png" "<checklist>"].

End Client.

(* ===================================================================== *)
(** * Facts about the comparator sort                                     *)
(* ===================================================================== *)

Section SortingFacts.
Context {A : Type} (before : A -> A -> bool).

Lemma insert_by_perm (x : A) (l : list A) : insert_by before x l ≡ₚ x :: l.
Proof.
  induction l as [|y l IH]; simpl; [done|].
  destruct (before x y); [done|].
  rewrite IH. apply Permutation_swap.
Qed.

Lemma sort_by_perm (l : list A) : sort_by before l ≡ₚ l.
Proof.
  induction l as [|x l IH]; simpl; [done|].
  rewrite insert_by_perm. by rewrite IH.
Qed.

Lemma sort_by_length (l : list A) : length (sort_by before l) = length l.
Proof. apply Permutation_length, sort_by_perm. Qed.

Lemma elem_of_sort_by (x : A) (l : list A) : x ∈ sort_by before l <-> x ∈ l.
Proof. by rewrite sort_by_perm. Qed.

(** With a comparator that is total and transitive the result is sorted:
    every element may stay in front of all the later ones. *)
Hypothesis before_total : forall x y, before x y = false -> before y x = true.
Hypothesis before_trans :
  forall x y z, before x y = true -> before y z = true -> before x z = true.

Lemma insert_by_sorted (x : A) (l : list A) :
  StronglySorted (fun a b => before a b = true) l ->
  StronglySorted (fun a b => before a b = true) (insert_by before x l).
Proof.
  induction 1 as [|y l Hsorted IH Hall]; simpl.
  - repeat constructor.
  - destruct (before x y) eqn:Hxy.
    + constructor; [by constructor|].
      constructor; [done|].
      eapply Forall_impl; [exact Hall|]. intros z Hz. by eapply before_trans.
    + constructor; [done|].
      rewrite insert_by_perm. constructor; [by apply before_total | done].
Qed.

Lemma sort_by_sorted (l : list A) :
  StronglySorted (fun a b => before a b = true) (sort_by before l).
Proof.
  induction l as [|x l IH]; simpl; [constructor|].
  by apply insert_by_sorted.
Qed.

Lemma StronglySorted_take (R : A -> A -> Prop) (n : nat) (l : list A) :
  StronglySorted R l -> StronglySorted R (take n l).
Proof.
  intros Hs. revert n. induction Hs as [|x l Hs IH Hall]; intros [|n]; simpl;
    try constructor; [apply IH | by apply Forall_take].
Qed.


End SortingFacts.

(* ===================================================================== *)
(** * Facts about the server                                              *)
(* ===================================================================== *)

Module ServerFacts.
Import Server.

Local Open Scope Z_scope.
Local Open Scope string_scope.

(** ** Frame rules: what a computation leaves alone in the process state *)

Section Frame.
Context (P : Proc -> Prop).

Lemma keeps_ret {A} (a : A) : keeps P (ret a).
Proof. by intros s. Qed.

Lemma keeps_bind {A B} (m : M A) (k : A -> M B) :
  keeps P m -> (forall a, keeps P (k a)) -> keeps P (bind m k).
Proof.
  intros Hm Hk s HP. unfold bind.
  specialize (Hm s HP). destruct (m s) as [[a|e] s']; simpl in *; [|done].
  by apply Hk.
Qed.

Lemma keeps_try_catch {A} (m : M A) (h : string -> M A) :
  keeps P m -> (forall e, keeps P (h e)) -> keeps P (try_catch m h).
Proof.
  intros Hm Hh s HP. unfold try_catch.
  specialize (Hm s HP). destruct (m s) as [[a|e] s']; simpl in *; [done|].
  by apply Hh.
Qed.

Lemma keeps_remote {A} ev (act : World -> outcome A * World) :
  keeps P (remote ev act).
Proof.
  intros s HP. unfold remote.
  destruct (head (faults (world s))) as [[msg|]|]; simpl; try done;
    by destruct (act _).
Qed.

Lemma keeps_for_of {A} (l : list A) (f : A -> M unit) :
  (forall x, keeps P (f x)) -> keeps P (for_of l f).
Proof.
  intros Hf. induction l as [|x l IH]; simpl.
  - apply keeps_ret.
  - apply keeps_bind; [apply Hf | by intros _].
Qed.
End Frame.

Section RouteFrames.
Variables (env : Env) (host : Host).
Context (P : Proc -> Prop).

Lemma keeps_getDriveService :
  (forall p, P p -> P (mkProc (recentSubmissions p) (dbClient p) true (sheets p))) ->
  keeps P (getDriveService env host).
Proof.
  intros HP s Hs. unfold getDriveService.
  destruct (drive (proc s)); [done|].
  destruct (negb (getGoogleAuth env host)); [done|]. simpl. by apply HP.
Qed.

Lemma keeps_getSheetsService :
  (forall p, P p -> P (mkProc (recentSubmissions p) (dbClient p) (drive p) true)) ->
  keeps P (getSheetsService env host).
Proof.
  intros HP s Hs. unfold getSheetsService.
  destruct (sheets (proc s)); [done|].
  destruct (negb (getGoogleAuth env host)); [done|]. simpl. by apply HP.
Qed.

Lemma keeps_getDbClient :
  (truthy (DATABASE_URL env) = true ->
   forall p, P p -> P (mkProc (recentSubmissions p) true (drive p) (sheets p))) ->
  keeps P (getDbClient env).
Proof.
  intros HP s Hs. unfold getDbClient.
  destruct (dbClient (proc s)); [done|].
  destruct (truthy (DATABASE_URL env)) eqn:Hurl; simpl; [|done].
  by apply HP.
Qed.

Lemma keeps_store_evidence req now : keeps P (store_evidence env host req now).
Proof.
  unfold store_evidence, find_or_create_folder.
  repeat (apply keeps_bind; [|intros ?]);
    repeat match goal with
           | |- keeps _ (match ?l with [] => _ | _ :: _ => _ end) => destruct l
           end;
    try apply keeps_remote; try apply keeps_ret.
  apply keeps_for_of. intros f. apply keeps_remote.
Qed.

Lemma keeps_log_to_database req fid :
  (truthy (DATABASE_URL env) = true ->
   forall p, P p -> P (mkProc (recentSubmissions p) true (drive p) (sheets p))) ->
  keeps P (log_to_database env req fid).
Proof.
  intros HP. unfold log_to_database.
  apply keeps_bind; [by apply keeps_getDbClient|]. intros [|].
  - apply keeps_try_catch; [apply keeps_remote|]. intros _. apply keeps_ret.
  - apply keeps_ret.
Qed.

Lemma keeps_log_to_sheets req now fid :
  (forall p, P p -> P (mkProc (recentSubmissions p) (dbClient p) (drive p) true)) ->
  keeps P (log_to_sheets env host req now fid).
Proof.
  intros HP. unfold log_to_sheets.
  apply keeps_bind; [by apply keeps_getSheetsService|]. intros b.
  destruct (_ && _).
  - apply keeps_try_catch; [apply keeps_remote|]. intros _. apply keeps_ret.
  - apply keeps_ret.
Qed.

Lemma keeps_process_submission req now :
  (truthy (DATABASE_URL env) = true ->
   forall p, P p -> P (mkProc (recentSubmissions p) true (drive p) (sheets p))) ->
  (forall p, P p -> P (mkProc (recentSubmissions p) (dbClient p) true (sheets p))) ->
  (forall p, P p -> P (mkProc (recentSubmissions p) (dbClient p) (drive p) true)) ->
  keeps P (process_submission env host req now).
Proof.
  intros Hdb Hdrive Hsheets. unfold process_submission.
  apply keeps_bind; [by apply keeps_getDriveService|]. intros [|]; simpl.
  - apply keeps_try_catch; [|intros ?; apply keeps_ret].
    apply keeps_bind; [apply keeps_store_evidence|]. intros fid.
    apply keeps_bind; [by apply keeps_log_to_database|]. intros _.
    apply keeps_bind; [by apply keeps_log_to_sheets|]. intros _.
    apply keeps_ret.
  - apply keeps_ret.
Qed.
Lemma keeps_upload_inspection req now :
  (forall p m, P p -> P (mkProc m (dbClient p) (drive p) (sheets p))) ->
  (truthy (DATABASE_URL env) = true ->
   forall p, P p -> P (mkProc (recentSubmissions p) true (drive p) (sheets p))) ->
  (forall p, P p -> P (mkProc (recentSubmissions p) (dbClient p) true (sheets p))) ->
  (forall p, P p -> P (mkProc (recentSubmissions p) (dbClient p) (drive p) true)) ->
  keeps P (upload_inspection env host req now).
Proof.
  intros Hmap Hdb Hdrive Hsheets. unfold upload_inspection.
  apply keeps_bind; [by intros s|]. intros recent.
  destruct (match recent !! _ with Some _ => _ | None => _ end).
  - apply keeps_ret.
  - apply keeps_bind; [|intros _; by apply keeps_process_submission].
    intros s Hs. simpl. by apply Hmap.
Qed.

Lemma keeps_dashboard_stats q :
  (truthy (DATABASE_URL env) = true ->
   forall p, P p -> P (mkProc (recentSubmissions p) true (drive p) (sheets p))) ->
  keeps P (dashboard_stats env q).
Proof.
  intros Hdb. unfold dashboard_stats.
  apply keeps_bind; [by apply keeps_getDbClient|]. intros [|]; simpl.
  - apply keeps_try_catch; [|intros ?; apply keeps_ret].
    apply keeps_bind; [apply keeps_remote|]. intros rows.
    apply keeps_bind; [apply keeps_remote|]. intros n. apply keeps_ret.
  - apply keeps_ret.
Qed.

Lemma keeps_initDb :
  (truthy (DATABASE_URL env) = true ->
   forall p, P p -> P (mkProc (recentSubmissions p) true (drive p) (sheets p))) ->
  keeps P (initDb env).
Proof.
  intros Hdb. unfold initDb.
  apply keeps_bind; [by apply keeps_getDbClient|]. intros [|]; simpl.
  - apply keeps_try_catch; [|intros ?; apply keeps_ret].
    apply keeps_bind; [apply keeps_remote|]. intros _. apply keeps_remote.
  - apply keeps_ret.
Qed.

End RouteFrames.

(** ** The upload route *)

Section Upload.
Variables (env : Env) (host : Host).

Lemma upload_duplicate req now s last :
  recentSubmissions (proc s) !! submissionKey req = Some last ->
  now - last < 10000 ->
  upload_inspection env host req now s = (Ok duplicate_reply, s).
Proof.
  intros Hlast Hwin.
  unfold upload_inspection, bind, get_recentSubmissions. rewrite Hlast.
  destruct (Z.ltb_spec (now - last) 10000); [done | lia].
Qed.

Lemma upload_pass req now s :
  (forall last, recentSubmissions (proc s) !! submissionKey req = Some last ->
                10000 <= now - last) ->
  upload_inspection env host req now s =
  process_submission env host req now (past_dedupe req now s).
Proof.
  intros Hold.
  unfold upload_inspection, bind, get_recentSubmissions, put_recentSubmissions.
  destruct (recentSubmissions (proc s) !! submissionKey req) as [last|] eqn:E;
    [|done].
  specialize (Hold last eq_refl).
  destruct (Z.ltb_spec (now - last) 10000); [lia | done].
Qed.

(** The two logging steps never let an exception out. *)
Lemma log_to_database_ok req fid s :
  fst (log_to_database env req fid s) = Ok tt.
Proof.
  unfold log_to_database, bind, try_catch, ret.
  destruct (getDbClient env s) as [[[|]|e] s1] eqn:E; simpl; try done.
  - by destruct (db_insert _ _ _ _ _ s1) as [[[]|?] ?].
  - unfold getDbClient in E. by repeat case_match.
Qed.

Lemma log_to_sheets_ok req now fid s :
  fst (log_to_sheets env host req now fid s) = Ok tt.
Proof.
  unfold log_to_sheets, bind, try_catch, ret.
  destruct (getSheetsService env host s) as [[b|e] s1] eqn:E; simpl.
  - destruct (_ && _); [|done].
    by destruct (sheets_append _ _ s1) as [[[]|?] ?].
  - unfold getSheetsService in E. by repeat case_match.
Qed.

(** The reply of the handler is decided by the storage path alone. *)
Lemma process_by_storage req now s :
  match storage_path env host req now s with
  | (Ok fid, _) =>
      fst (process_submission env host req now s) = Ok (success_reply fid)
  | (Throw msg, s') =>
      process_submission env host req now s = (Ok (error_reply msg), s')
  end.
Proof.
  unfold storage_path, process_submission, bind, try_catch, ret, throw.
  destruct (getDriveService env host s) as [[[|]|e] s1] eqn:E; simpl.
  - destruct (store_evidence env host req now s1) as [[fid|msg] s2]; [|done].
    pose proof (log_to_database_ok req fid s2) as Hdb.
    destruct (log_to_database env req fid s2) as [[[]|?] s3]; [|done].
    pose proof (log_to_sheets_ok req now fid s3) as Hsh.
    by destruct (log_to_sheets env host req now fid s3) as [[[]|?] s4].
  - done.
  - unfold getDriveService in E. by repeat case_match.
Qed.

Lemma process_reply req now s :
  exists resp, fst (process_submission env host req now s) = Ok resp /\
               resp <> duplicate_reply.
Proof.
  pose proof (process_by_storage req now s) as H.
  destruct (storage_path env host req now s) as [[fid|msg] s'].
  - exists (success_reply fid). by split.
  - exists (error_reply msg). rewrite H. by split.
Qed.

Lemma accepted_iff req now s :
  accepted env host req now s <->
  (forall last, recentSubmissions (proc s) !! submissionKey req = Some last ->
                10000 <= now - last).
Proof.
  unfold accepted. split.
  - intros Hacc last Hlast.
    destruct (Z.lt_ge_cases (now - last) 10000) as [Hlt|]; [|done].
    by rewrite (upload_duplicate _ _ _ _ Hlast Hlt) in Hacc.
  - intros Hold. rewrite (upload_pass _ _ _ Hold).
    destruct (process_reply req now (past_dedupe req now s)) as (resp & -> & Hne).
    congruence.
Qed.

Lemma process_keeps_recent req now s :
  recentSubmissions (proc (snd (process_submission env host req now s))) =
  recentSubmissions (proc s).
Proof.
  by apply (keeps_process_submission env host
              (fun p => recentSubmissions p = recentSubmissions (proc s))).
Qed.

(** After an accepted submission the map holds its arrival time. *)
Lemma accepted_records req now s :
  accepted env host req now s ->
  recentSubmissions (proc (snd (upload_inspection env host req now s)))
    !! submissionKey req = Some now.
Proof.
  intros Hacc. pose proof (proj1 (accepted_iff _ _ _) Hacc) as Hold.
  rewrite (upload_pass _ _ _ Hold), process_keeps_recent.
  apply lookup_insert_eq.
Qed.

Lemma submissionKey_same reqA reqB :
  employeeId reqB = employeeId reqA ->
  substationName reqB = substationName reqA ->
  submissionKey reqB = submissionKey reqA.
Proof. unfold submissionKey. by intros -> ->. Qed.

(** Requests that do not submit under a key leave its entry alone. *)
Lemma handle_other_key key r s :
  submits_key key r = false ->
  recentSubmissions (proc (snd (handle env host r s))) !! key
  = recentSubmissions (proc s) !! key.
Proof.
  intros Hother. destruct r as [|req now|q]; simpl in *.
  - done.
  - apply String.eqb_neq in Hother.
    unfold upload_inspection, bind, get_recentSubmissions, put_recentSubmissions.
    destruct (match recentSubmissions (proc s) !! submissionKey req with
              | Some lastTime => Z.ltb (now - lastTime) 10000
              | None => false
              end); [done|].
    rewrite process_keeps_recent. simpl. by apply lookup_insert_ne.
  - by rewrite (keeps_dashboard_stats env
                  (fun p => recentSubmissions p = recentSubmissions (proc s))).
Qed.

Lemma serve_other_keys key between s :
  Forall (fun r => submits_key key r = false) between ->
  recentSubmissions (proc (serve env host between s)) !! key
  = recentSubmissions (proc s) !! key.
Proof.
  intros Hall. revert s. induction Hall as [|r rest Hr _ IH]; intros s; simpl.
  - done.
  - by rewrite IH, handle_other_key.
Qed.

(** After an accepted submission and any number of requests that do not
    submit under its key, the map still holds its arrival time. *)
Lemma entry_survives req now between s :
  accepted env host req now s ->
  Forall (fun r => submits_key (submissionKey req) r = false) between ->
  recentSubmissions
    (proc (serve env host between (snd (upload_inspection env host req now s))))
    !! submissionKey req = Some now.
Proof.
  intros Hacc Hother. rewrite serve_other_keys by done.
  by apply accepted_records.
Qed.

(** *** Runs without faults *)

Lemma remote_calm {A} ev (act : World -> outcome A * World) s :
  faults (world s) = [] ->
  remote ev act s =
  (let '(r, w') := act (record_call ev (world s)) in (r, set_world w' s)).
Proof. intros Hf. unfold remote. by rewrite Hf. Qed.

Lemma untouched_db_trans s1 s2 s3 :
  untouched_db s1 s2 -> untouched_db s2 s3 -> untouched_db s1 s3.
Proof. unfold untouched_db. intros (?&?&?&?&?) (?&?&?&?&?). repeat split; congruence. Qed.

Lemma drive_files_list_calm name parent s :
  faults (world s) = [] ->
  exists ids s', drive_files_list name parent s = (Ok ids, s') /\
                 untouched_db s s'.
Proof.
  intros Hf. unfold drive_files_list. rewrite remote_calm by done.
  eexists _, _. split; [done|]. unfold untouched_db. simpl. by rewrite Hf.
Qed.

Lemma drive_files_create_folder_calm name parent s :
  faults (world s) = [] ->
  exists id s', drive_files_create_folder name parent s = (Ok id, s') /\
                untouched_db s s'.
Proof.
  intros Hf. unfold drive_files_create_folder. rewrite remote_calm by done.
  eexists _, _. split; [done|]. unfold untouched_db. simpl. by rewrite Hf.
Qed.

Lemma drive_files_create_media_calm f parent s :
  faults (world s) = [] ->
  exists s', drive_files_create_media f parent s = (Ok tt, s') /\
             untouched_db s s'.
Proof.
  intros Hf. unfold drive_files_create_media. rewrite remote_calm by done.
  eexists. split; [done|]. unfold untouched_db. simpl. by rewrite Hf.
Qed.

Lemma find_or_create_folder_calm name metadataName parent s :
  faults (world s) = [] ->
  exists id s', find_or_create_folder name metadataName parent s = (Ok id, s') /\
                untouched_db s s'.
Proof.
  intros Hf. unfold find_or_create_folder, bind.
  destruct (drive_files_list_calm name parent s Hf) as (ids & s1 & -> & H1).
  destruct ids as [|id ids].
  - destruct (drive_files_create_folder_calm metadataName parent s1)
      as (id & s2 & -> & H2); [apply H1|].
    exists id, s2. split; [done|]. by eapply untouched_db_trans.
  - by exists id, s1.
Qed.

Lemma upload_loop_calm (l : list UploadedFile) parent s :
  faults (world s) = [] ->
  exists s', for_of l (fun file => drive_files_create_media file parent) s
             = (Ok tt, s') /\ untouched_db s s'.
Proof.
  revert s. induction l as [|f l IH]; intros s Hf; simpl.
  - exists s. split; [done|]. by repeat split.
  - unfold bind.
    destruct (drive_files_create_media_calm f parent s Hf) as (s1 & -> & H1).
    destruct (IH s1) as (s2 & -> & H2); [apply H1|].
    exists s2. split; [done|]. by eapply untouched_db_trans.
Qed.

Lemma store_evidence_calm req now s :
  faults (world s) = [] ->
  exists fid s', store_evidence env host req now s = (Ok fid, s') /\
                 untouched_db s s'.
Proof.
  intros Hf. unfold store_evidence, bind.
  edestruct find_or_create_folder_calm as (main & s1 & -> & H1); [exact Hf|].
  edestruct (find_or_create_folder_calm) as (daily & s2 & -> & H2); [apply H1|].
  edestruct (upload_loop_calm (files req) daily s2) as (s3 & -> & H3); [apply H2|].
  exists daily, s3. split; [done|].
  eapply untouched_db_trans; [|exact H3]. by eapply untouched_db_trans.
Qed.

Lemma log_to_database_calm req fid sn s :
  truthy (DATABASE_URL env) = true ->
  substationName req = Some sn ->
  faults (world s) = [] ->
  db_rows (world (snd (log_to_database env req fid s))) =
  (db_rows (world s) ++
   [mkLogRow (db_serial (world s) + 1) (or_default (employeeId req) "Unknown")
             sn (db_clock (world s)) (lat req) (lng req) fid "completed"])%list.
Proof.
  intros Hurl Hsn Hf.
  unfold log_to_database, bind, getDbClient, try_catch. rewrite Hurl, Hsn.
  destruct (dbClient (proc s)); simpl;
    unfold db_insert; rewrite remote_calm by done; done.
Qed.

Lemma log_to_sheets_db_rows req now fid s :
  db_rows (world (snd (log_to_sheets env host req now fid s))) =
  db_rows (world s).
Proof.
  unfold log_to_sheets, bind, getSheetsService, try_catch, sheets_append, remote, ret.
  repeat (case_match; simplify_eq/=; try done).
Qed.

(** C1.  Once a submission of worker W for substation S has been accepted
    at time [t], the next submission with the same W and S (other requests
    may have been served in between) that arrives at [t'] with
    [t' - t < 10000] is answered with
    [{success: true, message: "Duplicate request ignored"}], and the handler
    returns in the very state it started from: the Drive items, the
    database rows, the spreadsheet rows and the log of remote calls are
    untouched, so nothing was uploaded, inserted or appended. *)
Theorem duplicate_within_window reqA reqB between t t' s :
  employeeId reqB = employeeId reqA ->
  substationName reqB = substationName reqA ->
  accepted env host reqA t s ->
  Forall (fun r => submits_key (submissionKey reqA) r = false) between ->
  t' - t < 10000 ->
  let s1 := serve env host between (snd (upload_inspection env host reqA t s)) in
  upload_inspection env host reqB t' s1 = (Ok duplicate_reply, s1).
Proof.
  intros HW HS Hacc Hother Hwin s1.
  apply upload_duplicate with (last := t); [|done].
  rewrite (submissionKey_same _ _ HW HS). by apply entry_survives.
Qed.

(** C10.  The arrival time is put in the map before the storage path runs:
    an accepted submission is processed from a state whose map already holds
    [t].  When that submission ends in HTTP 500 the entry is still there
    afterwards, and a retry for the same W and S less than 10000 ms after
    [t] (other requests may have been served in between) gets the duplicate
    reply without any remote call: the state does not change. *)
Theorem failed_upload_keeps_dedupe_entry req t s resp :
  accepted env host req t s ->
  fst (upload_inspection env host req t s) = Ok resp ->
  http_status resp = 500 ->
  upload_inspection env host req t s
    = process_submission env host req t (past_dedupe req t s) /\
  recentSubmissions (proc (past_dedupe req t s)) !! submissionKey req = Some t /\
  recentSubmissions (proc (snd (upload_inspection env host req t s)))
    !! submissionKey req = Some t /\
  forall retry between t',
    employeeId retry = employeeId req ->
    substationName retry = substationName req ->
    Forall (fun r => submits_key (submissionKey req) r = false) between ->
    t' - t < 10000 ->
    let s1 := serve env host between (snd (upload_inspection env host req t s)) in
    upload_inspection env host retry t' s1 = (Ok duplicate_reply, s1).
Proof.
  intros Hacc _ _. repeat split.
  - apply upload_pass. by apply accepted_iff.
  - apply lookup_insert_eq.
  - by apply accepted_records.
  - intros retry between t' HW HS Hother Hwin s1.
    apply upload_duplicate with (last := t); [|done].
    rewrite (submissionKey_same _ _ HW HS). by apply entry_survives.
Qed.

(** C2.  For an accepted submission the reply depends on the storage path
    only.  If the Drive service is obtained and the folder resolution and
    every file upload go through, the reply is [{success: true, folderId}]
    with the daily folder identifier, whatever the database insert and the
    spreadsheet append do: neither logging step ever lets an exception out.
    If the storage path fails the reply is HTTP 500 with [{error}].  So the
    reply has status 500 exactly when the storage path failed. *)
Theorem upload_fails_only_on_storage req now s :
  accepted env host req now s ->
  (forall fid,
      fst (storage_path env host req now (past_dedupe req now s)) = Ok fid ->
      fst (upload_inspection env host req now s) = Ok (success_reply fid)) /\
  (forall msg,
      fst (storage_path env host req now (past_dedupe req now s)) = Throw msg ->
      fst (upload_inspection env host req now s) = Ok (error_reply msg)) /\
  (forall fid s', fst (log_to_database env req fid s') = Ok tt) /\
  (forall fid s', fst (log_to_sheets env host req now fid s') = Ok tt) /\
  (forall resp,
      fst (upload_inspection env host req now s) = Ok resp ->
      (http_status resp = 500 <->
       exists msg,
         fst (storage_path env host req now (past_dedupe req now s)) = Throw msg)).
Proof.
  intros Hacc. pose proof (proj1 (accepted_iff _ _ _) Hacc) as Hold.
  rewrite (upload_pass _ _ _ Hold).
  pose proof (process_by_storage req now (past_dedupe req now s)) as Hby.
  split; [|split; [|split; [|split]]].
  - intros fid Hfid.
    destruct (storage_path _ _ _ _ _) as [[fid'|msg] s']; simpl in Hfid; by simplify_eq.
  - intros msg Hmsg.
    destruct (storage_path _ _ _ _ _) as [[fid|msg'] s']; simpl in Hmsg;
      simplify_eq. by rewrite Hby.
  - intros fid s'. apply log_to_database_ok.
  - intros fid s'. apply log_to_sheets_ok.
  - intros resp Hresp.
    destruct (storage_path _ _ _ _ _) as [[fid|msg] s']; simpl.
    + rewrite Hby in Hresp. simplify_eq. split; [done | by intros [msg ?]].
    + rewrite Hby in Hresp. simpl in Hresp. simplify_eq. split; [by exists msg | done].
Qed.

Lemma getDriveService_configured s :
  getGoogleAuth env host = true ->
  exists s', getDriveService env host s = (Ok true, s') /\ world s' = world s.
Proof.
  intros Hauth. unfold getDriveService. rewrite Hauth.
  destruct (drive (proc s)); simpl; by eexists.
Qed.

(** A submission that finds every service configured and no fault pending
    is answered with the daily folder and leaves exactly one new row. *)
Lemma process_submission_calm req now sn s :
  getGoogleAuth env host = true ->
  truthy (DATABASE_URL env) = true ->
  substationName req = Some sn ->
  faults (world s) = [] ->
  exists fid,
    fst (process_submission env host req now s) = Ok (success_reply fid) /\
    db_rows (world (snd (process_submission env host req now s))) =
    (db_rows (world s) ++
     [mkLogRow (db_serial (world s) + 1) (or_default (employeeId req) "Unknown")
               sn (db_clock (world s)) (lat req) (lng req) fid "completed"])%list.
Proof.
  intros Hauth Hurl Hsn Hf. unfold process_submission, bind, try_catch, ret.
  destruct (getDriveService_configured s Hauth) as (s0 & -> & Hw). simpl.
  destruct (store_evidence_calm req now s0) as (fid & s1 & -> & H1);
    [by rewrite Hw|].
  destruct H1 as (_ & Hrows & Hserial & Hclock & Hf1).
  pose proof (log_to_database_ok req fid s1) as Hok.
  pose proof (log_to_database_calm req fid sn s1 Hurl Hsn Hf1) as Hdb.
  destruct (log_to_database env req fid s1) as [[[]|?] s2]; [|done].
  pose proof (log_to_sheets_ok req now fid s2) as Hok'.
  pose proof (log_to_sheets_db_rows req now fid s2) as Hsh.
  destruct (log_to_sheets env host req now fid s2) as [[[]|?] s3]; [|done].
  exists fid. split; [done|]. simpl in *.
  rewrite Hsh, Hdb, Hrows, Hserial, Hclock. by rewrite Hw.
Qed.

(** C7.  After a submission of W for S accepted at [t], the next
    submission with the same W and S (other requests may have been served
    in between) arriving at [t + 10001] is accepted as well: it is not
    answered as a duplicate and the map now holds [t + 10001].  When the
    services are configured, the substation name is present and no fault
    is pending, it is answered with its daily folder and the table gains
    one row of its own. *)
Theorem resubmission_after_window reqA reqB between t s :
  employeeId reqB = employeeId reqA ->
  substationName reqB = substationName reqA ->
  accepted env host reqA t s ->
  Forall (fun r => submits_key (submissionKey reqA) r = false) between ->
  let s1 := serve env host between (snd (upload_inspection env host reqA t s)) in
  let r2 := upload_inspection env host reqB (t + 10001) s1 in
  accepted env host reqB (t + 10001) s1 /\
  recentSubmissions (proc (snd r2)) !! submissionKey reqB = Some (t + 10001) /\
  (forall sn,
      getGoogleAuth env host = true ->
      truthy (DATABASE_URL env) = true ->
      substationName reqB = Some sn ->
      faults (world s1) = [] ->
      exists fid,
        fst r2 = Ok (success_reply fid) /\
        db_rows (world (snd r2)) =
        (db_rows (world s1) ++
         [mkLogRow (db_serial (world s1) + 1)
                   (or_default (employeeId reqB) "Unknown") sn
                   (db_clock (world s1)) (lat reqB) (lng reqB) fid
                   "completed"])%list).
Proof.
  intros HW HS Hacc Hother s1 r2.
  assert (Hold : forall last,
             recentSubmissions (proc s1) !! submissionKey reqB = Some last ->
             10000 <= t + 10001 - last).
  { intros last. rewrite (submissionKey_same _ _ HW HS).
    unfold s1. rewrite (entry_survives _ _ _ _ Hacc Hother). intros [= <-]. lia. }
  assert (Hacc2 : accepted env host reqB (t + 10001) s1) by by apply accepted_iff.
  split; [done|]. split; [by apply accepted_records|].
  intros sn Hauth Hurl Hsn Hf. unfold r2. rewrite (upload_pass _ _ _ Hold).
  exact (process_submission_calm reqB (t + 10001) sn
           (past_dedupe reqB (t + 10001) s1) Hauth Hurl Hsn Hf).
Qed.

End Upload.

(** ** The dashboard route *)

Section Dashboard.
Variables (env : Env) (host : Host).

(** Without a connection string no client is ever created. *)
Lemma no_url_no_client s :
  truthy (DATABASE_URL env) = false ->
  reachable env host s -> dbClient (proc s) = false.
Proof.
  intros Hurl. induction 1 as [w|s Hs IH|s r Hs IH|s w Hs IH]; simpl; try done.
  - apply (keeps_initDb env (fun p => dbClient p = false)); [congruence | done].
  - destruct r as [|req now|q]; simpl.
    + done.
    + apply (keeps_upload_inspection env host (fun p => dbClient p = false));
        (done || congruence).
    + apply (keeps_dashboard_stats env (fun p => dbClient p = false));
        (done || congruence).
Qed.

(** C9.  When [DATABASE_URL] is absent (or empty), in every state the
    process can reach, any dashboard query is answered with
    [{total: 0, recent: []}] (status 200): no exception, no error reply,
    and no remote call, since the state is left as it was. *)
Theorem dashboard_stats_without_database q s :
  truthy (DATABASE_URL env) = false ->
  reachable env host s ->
  dashboard_stats env q s = (Ok empty_stats_reply, s).
Proof.
  intros Hurl Hreach. unfold dashboard_stats, bind, getDbClient.
  by rewrite (no_url_no_client s Hurl Hreach), Hurl.
Qed.

(** *** What a filtered query answers *)

Lemma ts_leb_total a b : ts_leb a b = false -> ts_leb b a = true.
Proof.
  unfold ts_leb. intros H.
  repeat match goal with
         | |- context [Z.ltb ?x ?y] => destruct (Z.ltb_spec x y)
         | |- context [Z.eqb ?x ?y] => destruct (Z.eqb_spec x y)
         | |- context [Z.leb ?x ?y] => destruct (Z.leb_spec x y)
         | H : context [Z.ltb ?x ?y] |- _ => destruct (Z.ltb_spec x y)
         | H : context [Z.eqb ?x ?y] |- _ => destruct (Z.eqb_spec x y)
         | H : context [Z.leb ?x ?y] |- _ => destruct (Z.leb_spec x y)
         end; simpl in *; try done; lia.
Qed.

Lemma ts_leb_trans a b c :
  ts_leb a b = true -> ts_leb b c = true -> ts_leb a c = true.
Proof.
  unfold ts_leb. intros H1 H2.
  repeat match goal with
         | |- context [Z.ltb ?x ?y] => destruct (Z.ltb_spec x y)
         | |- context [Z.eqb ?x ?y] => destruct (Z.eqb_spec x y)
         | |- context [Z.leb ?x ?y] => destruct (Z.leb_spec x y)
         | H : context [Z.ltb ?x ?y] |- _ => destruct (Z.ltb_spec x y)
         | H : context [Z.eqb ?x ?y] |- _ => destruct (Z.eqb_spec x y)
         | H : context [Z.leb ?x ?y] |- _ => destruct (Z.leb_spec x y)
         end; simpl in *; try done; lia.
Qed.

Lemma newest_first_sorted (rows : list LogRow) :
  StronglySorted (fun a b => ts_leb (timestamp b) (timestamp a) = true)
                 (take 100 (sort_by newer_first rows)).
Proof.
  apply StronglySorted_take.
  apply (sort_by_sorted newer_first).
  - intros x y. apply ts_leb_total.
  - intros x y z Hxy Hyz. unfold newer_first in *. by eapply ts_leb_trans.
Qed.

Lemma in_month_spec m y r :
  in_month m y r = true <->
  ts_month (timestamp r) = m /\ ts_year (timestamp r) = y.
Proof. unfold in_month. rewrite andb_true_iff, !Z.eqb_eq. done. Qed.

Lemma pg_integer_truthy t z : pg_integer t = Some z -> truthy (Some t) = true.
Proof. by destruct t. Qed.

Lemma getDbClient_world s : world (snd (getDbClient env s)) = world s.
Proof. unfold getDbClient. by repeat case_match. Qed.

(** With a client, no pending fault and both filters given as integers, the
    reply carries [total] (distinct substation names of the month) and
    [recent] (the month's rows, latest first, at most 100), and nothing
    else. *)
Lemma dashboard_stats_window q s mtxt ytxt m y :
  month q = Some mtxt -> year q = Some ytxt ->
  pg_integer mtxt = Some m -> pg_integer ytxt = Some y ->
  fst (getDbClient env s) = Ok true ->
  faults (world s) = [] ->
  let window := filter (fun r => in_month m y r) (db_rows (world s)) in
  let rows := take 100 (sort_by newer_first window) in
  fst (dashboard_stats env q s)
    = Ok (stats_reply
            (Z.of_nat (length (remove_dups (map substation_name window)))) rows)
  /\ Forall (fun r => ts_month (timestamp r) = m /\ ts_year (timestamp r) = y) rows
  /\ (length rows <= 100)%nat
  /\ StronglySorted (fun a b => ts_leb (timestamp b) (timestamp a) = true) rows.
Proof.
  intros Hm Hy Hmz Hyz Hclient Hf window rows. repeat split.
  - unfold dashboard_stats, bind, try_catch, ret.
    pose proof (getDbClient_world s) as Hw.
    destruct (getDbClient env s) as [r s0]. simpl in Hclient, Hw. subst r. simpl.
    rewrite Hm, Hy, (pg_integer_truthy _ _ Hmz), (pg_integer_truthy _ _ Hyz).
    simpl. unfold db_select, db_count_distinct.
    rewrite remote_calm by (by rewrite Hw). simpl. rewrite Hmz, Hyz. simpl.
    rewrite remote_calm by (simpl; by rewrite Hw, Hf). simpl. rewrite ?Hmz, ?Hyz.
    simpl. by rewrite Hw.
  - apply Forall_take. apply Forall_forall. intros r Hr.
    apply elem_of_sort_by in Hr.
    apply list_elem_of_filter in Hr as [Hr _].
    apply in_month_spec. by apply Is_true_true.
  - unfold rows. rewrite length_take. lia.
  - apply newest_first_sorted.
Qed.

(** Without filters the same two fields are computed over the whole table. *)
Lemma dashboard_stats_unfiltered s :
  fst (getDbClient env s) = Ok true ->
  faults (world s) = [] ->
  fst (dashboard_stats env (mkStatsQuery None None) s)
    = Ok (stats_reply
            (Z.of_nat (length (remove_dups (map substation_name
                         (filter (fun _ => true) (db_rows (world s)))))))
            (take 100 (sort_by newer_first
                         (filter (fun _ => true) (db_rows (world s)))))).
Proof.
  intros Hclient Hf. unfold dashboard_stats, bind, try_catch, ret.
  pose proof (getDbClient_world s) as Hw.
  destruct (getDbClient env s) as [r s0]. simpl in Hclient, Hw. subst r. simpl.
  unfold db_select, db_count_distinct.
  rewrite remote_calm by (by rewrite Hw). simpl.
  rewrite remote_calm by (simpl; by rewrite Hw, Hf). simpl. by rewrite Hw.
Qed.

(** Whatever the query and the state, the reply of the route has no
    [totalSubmissions] member. *)
Lemma dashboard_stats_members q s resp :
  fst (dashboard_stats env q s) = Ok resp ->
  field "totalSubmissions" (body resp) = None.
Proof.
  unfold dashboard_stats, bind, try_catch, ret, getDbClient.
  repeat (case_match; simplify_eq/=; try done); by intros [= <-].
Qed.

End Dashboard.

(** C3.  The route called with [month=2&year=2026] on a table that holds
    two February 2026 submissions for one substation and one January
    submission for another: [recent] has the two February rows, latest
    first, and [total] is 1, the number of distinct substations; but the
    reply has no [totalSubmissions] member, although two submissions fall
    in the month. *)
Theorem dashboard_stats_omits_totalSubmissions :
  let february :=
    [ mkLogRow 3 "654321" "สามชุก" (mkTimestamp 2026 2 700000)
               (Some "14.755") (Some "100.095") "drive-5" "completed";
      mkLogRow 2 "123456" "สามชุก" (mkTimestamp 2026 2 100000)
               (Some "14.755") (Some "100.095") "drive-3" "completed" ] in
  fst (dashboard_stats sample_env (mkStatsQuery (Some "2") (Some "2026"))
                       (boot sample_log_world))
    = Ok (stats_reply 1 february)
  /\ length (filter (fun r => in_month 2 2026 r) sample_log) = 2%nat
  /\ field "total" (body (stats_reply 1 february)) = Some (JNum 1)
  /\ field "totalSubmissions" (body (stats_reply 1 february)) = None.
Proof. by repeat split. Qed.

(** ** Concrete runs *)

Lemma duplicate_within_window_witness :
  accepted sample_env sample_host sample_submission 1000 (boot (sample_world []))
  /\ 5000 - 1000 < 10000
  /\ upload_inspection sample_env sample_host sample_submission 5000
       (serve sample_env sample_host sample_traffic
          (snd (upload_inspection sample_env sample_host sample_submission 1000
                  (boot (sample_world [])))))
     = (Ok duplicate_reply,
        serve sample_env sample_host sample_traffic
          (snd (upload_inspection sample_env sample_host sample_submission 1000
                  (boot (sample_world []))))).
Proof.
  assert (Hacc : accepted sample_env sample_host sample_submission 1000
                          (boot (sample_world []))).
  { intros H. vm_compute in H. discriminate H. }
  split; [exact Hacc|]. split; [lia|].
  apply (duplicate_within_window sample_env sample_host sample_submission
           sample_submission sample_traffic 1000 5000 (boot (sample_world [])));
    [reflexivity | reflexivity | exact Hacc | | lia].
  repeat constructor.
Defined.

(** The first Drive call is rejected: HTTP 500, yet the entry stays and the
    retry two seconds later is taken for a duplicate. *)
Lemma failed_upload_keeps_dedupe_entry_witness :
  fst (upload_inspection sample_env sample_host sample_submission 1000
         (boot (sample_world [Some "quota exceeded"])))
    = Ok (error_reply "quota exceeded")
  /\ upload_inspection sample_env sample_host sample_submission 3000
       (snd (upload_inspection sample_env sample_host sample_submission 1000
               (boot (sample_world [Some "quota exceeded"]))))
     = (Ok duplicate_reply,
        snd (upload_inspection sample_env sample_host sample_submission 1000
               (boot (sample_world [Some "quota exceeded"])))).
Proof.
  split; [reflexivity|].
  refine (proj2 (proj2 (proj2
    (failed_upload_keeps_dedupe_entry sample_env sample_host sample_submission
       1000 (boot (sample_world [Some "quota exceeded"]))
       (error_reply "quota exceeded") _ _ _)))
    sample_submission [] 3000 _ _ _ _);
    [ intros H; vm_compute in H; discriminate H
    | reflexivity | reflexivity | reflexivity | reflexivity
    | constructor | lia ].
Defined.

(** Five Drive calls go through, then the insert and the append are both
    rejected: the reply is still the daily folder. *)
Lemma upload_fails_only_on_storage_witness :
  fst (upload_inspection sample_env sample_host sample_submission 1000
         (boot (sample_world [None; None; None; None; None;
                              Some "connection refused";
                              Some "sheet not found"])))
    = Ok (success_reply "drive-1").
Proof.
  refine (proj1
    (upload_fails_only_on_storage sample_env sample_host sample_submission 1000
       (boot (sample_world [None; None; None; None; None;
                            Some "connection refused";
                            Some "sheet not found"])) _)
    "drive-1" _);
    [ intros H; vm_compute in H; discriminate H | reflexivity ].
Defined.

(** Two submissions 10001 ms apart, with a health check, a dashboard query
    and a submission for another substation in between: the second one is
    accepted and adds the third row. *)
Lemma resubmission_after_window_witness :
  accepted sample_env sample_host sample_submission (1000 + 10001)
    (serve sample_env sample_host sample_traffic
       (snd (upload_inspection sample_env sample_host sample_submission 1000
               (boot (sample_world []))))) /\
  exists fid,
    fst (upload_inspection sample_env sample_host sample_submission
           (1000 + 10001)
           (serve sample_env sample_host sample_traffic
              (snd (upload_inspection sample_env sample_host sample_submission
                      1000 (boot (sample_world []))))))
      = Ok (success_reply fid) /\
    length (db_rows (world (snd
      (upload_inspection sample_env sample_host sample_submission
         (1000 + 10001)
         (serve sample_env sample_host sample_traffic
            (snd (upload_inspection sample_env sample_host sample_submission
                    1000 (boot (sample_world []))))))))) = 3%nat.
Proof.
  destruct (resubmission_after_window sample_env sample_host sample_submission
              sample_submission sample_traffic 1000 (boot (sample_world [])))
    as (Hacc & _ & Hrow);
    [ reflexivity | reflexivity | intros H; vm_compute in H; discriminate H
    | repeat constructor | ].
  split; [exact Hacc|].
  destruct (Hrow "สามชุก") as (fid & Hreply & Hrows);
    [reflexivity | reflexivity | reflexivity | reflexivity |].
  exists fid. split; [exact Hreply|]. rewrite Hrows. vm_compute. reflexivity.
Defined.

Lemma dashboard_stats_without_database_witness :
  dashboard_stats sample_env_without_db
    (mkStatsQuery (Some "2") (Some "2026"))
    (snd (upload_inspection sample_env_without_db sample_host sample_submission
            1000 (boot sample_log_world)))
  = (Ok empty_stats_reply,
     snd (upload_inspection sample_env_without_db sample_host sample_submission
            1000 (boot sample_log_world))).
Proof.
  apply (dashboard_stats_without_database sample_env_without_db sample_host);
    [ reflexivity
    | apply (reach_handle _ _ _ (PostUploadInspection sample_submission 1000)),
            reach_boot ].
Defined.

End ServerFacts.

(* ===================================================================== *)
(** * Facts about the selection page                                      *)
(* ===================================================================== *)

Module GeoFacts.
Import Geo.

Local Open Scope R_scope.

(** ** [Math.atan2] and the haversine distance *)

Lemma Math_atan2_0_1 : Math_atan2 0 1 = 0.
Proof.
  unfold Math_atan2. destruct (Rlt_dec 0 1) as [_|Hn]; [|lra].
  replace (0 / 1) with 0 by lra. apply atan_0.
Qed.

Lemma atan_nonneg (x : R) : 0 <= x -> 0 <= atan x.
Proof.
  intros [Hpos| <-].
  - left. rewrite <- atan_0. by apply atan_increasing.
  - rewrite atan_0. lra.
Qed.

Lemma Math_atan2_nonneg (y x : R) : 0 <= y -> 0 <= Math_atan2 y x.
Proof.
  intros Hy. unfold Math_atan2. pose proof PI_RGT_0 as Hpi.
  destruct (Rlt_dec 0 x) as [Hx|Hx].
  - apply atan_nonneg. apply Rmult_le_pos; [done|].
    left. by apply Rinv_0_lt_compat.
  - destruct (Rlt_dec x 0) as [Hx'|Hx'].
    + destruct (Rle_dec 0 y) as [_|Hy']; [|lra].
      pose proof (atan_bound (y / x)) as [Hlo _]. lra.
    + destruct (Rlt_dec 0 y); [lra|]. destruct (Rlt_dec y 0); lra.
Qed.

Lemma calculateDistance_nonneg lat1 lon1 lat2 lon2 :
  0 <= calculateDistance lat1 lon1 lat2 lon2.
Proof.
  unfold calculateDistance.
  match goal with
  | |- 0 <= 6371 * (2 * Math_atan2 ?y ?x) =>
      pose proof (Math_atan2_nonneg y x (sqrt_pos _))
  end. lra.
Qed.

Lemma calculateDistance_self lat1 lon1 :
  calculateDistance lat1 lon1 lat1 lon1 = 0.
Proof.
  unfold calculateDistance.
  replace ((lat1 - lat1) * PI / 180 / 2) with 0 by (unfold Rdiv; ring).
  replace ((lon1 - lon1) * PI / 180 / 2) with 0 by (unfold Rdiv; ring).
  rewrite sin_0.
  replace (0 * 0 + cos (lat1 * PI / 180) * cos (lat1 * PI / 180) * 0 * 0)
    with 0 by ring.
  rewrite sqrt_0. replace (1 - 0) with 1 by ring. rewrite sqrt_1.
  rewrite Math_atan2_0_1. ring.
Qed.

Lemma calculateDistance_sym lat1 lon1 lat2 lon2 :
  calculateDistance lat1 lon1 lat2 lon2 = calculateDistance lat2 lon2 lat1 lon1.
Proof.
  unfold calculateDistance.
  replace ((lat1 - lat2) * PI / 180 / 2) with (- ((lat2 - lat1) * PI / 180 / 2))
    by (unfold Rdiv; ring).
  replace ((lon1 - lon2) * PI / 180 / 2) with (- ((lon2 - lon1) * PI / 180 / 2))
    by (unfold Rdiv; ring).
  rewrite !sin_neg.
  set (sLat := sin ((lat2 - lat1) * PI / 180 / 2)).
  set (sLon := sin ((lon2 - lon1) * PI / 180 / 2)).
  set (c1 := cos (lat1 * PI / 180)). set (c2 := cos (lat2 * PI / 180)).
  replace (- sLat * - sLat + c2 * c1 * - sLon * - sLon)
    with (sLat * sLat + c1 * c2 * sLon * sLon) by ring.
  reflexivity.
Qed.


(** ** Ranking *)

Lemma or_zero_some (x : R) : or_zero (Some x) = x.
Proof. unfold or_zero, number_truthy. by destruct (Req_dec_T x 0) as [->|]. Qed.

Lemma Rle_bool_spec (x y : R) : Rle_bool x y = true <-> x <= y.
Proof. unfold Rle_bool. by destruct (Rle_dec x y). Qed.

Lemma stays_before_spec a b :
  stays_before a b = true <-> or_zero (distance a) <= or_zero (distance b).
Proof. unfold stays_before, compareDistance. rewrite Rle_bool_spec. lra. Qed.

Lemma stays_before_total a b : stays_before a b = false -> stays_before b a = true.
Proof.
  intros H. apply stays_before_spec.
  destruct (Rle_dec (or_zero (distance a)) (or_zero (distance b))) as [Hle|Hgt];
    [|lra].
  apply stays_before_spec in Hle. congruence.
Qed.

Lemma stays_before_trans a b c :
  stays_before a b = true -> stays_before b c = true -> stays_before a c = true.
Proof. rewrite !stays_before_spec. lra. Qed.

Lemma sorted_onPosition catalog latitude longitude st :
  sortedSubstations (onPosition catalog latitude longitude st)
  = sort_by stays_before (withDistance catalog latitude longitude).
Proof. unfold onPosition. by destruct (sort_by _ _). Qed.

Lemma elem_of_withDistance catalog latitude longitude r :
  r ∈ withDistance catalog latitude longitude <->
  station r ∈ catalog /\ distance r = Some (distanceFrom latitude longitude r).
Proof.
  unfold withDistance. rewrite list_elem_of_fmap. split.
  - by intros (sub & -> & Hsub).
  - intros [Hsub Hd]. exists (station r). split; [|done].
    destruct r as [sub d]. simpl in *. by rewrite Hd.
Qed.




(** ** The nearby list *)





(** ** Detection of the nearest station *)

(** The head of the ranking is a catalog station at minimal distance. *)
Lemma nearest_is_minimum catalog latitude longitude first rest :
  sort_by stays_before (withDistance catalog latitude longitude) = first :: rest ->
  distance first = Some (distanceFrom latitude longitude first) /\
  forall sub, sub ∈ catalog ->
    distanceFrom latitude longitude first
    <= calculateDistance latitude longitude (lat sub) (lng sub).
Proof.
  intros Hsort.
  assert (Hfirst : first ∈ withDistance catalog latitude longitude).
  { apply (elem_of_sort_by stays_before). rewrite Hsort. by left. }
  apply elem_of_withDistance in Hfirst as [_ Hd]. split; [done|].
  intros sub Hsub.
  set (r := mkRanked sub
              (Some (calculateDistance latitude longitude (lat sub) (lng sub)))).
  assert (Hr : r ∈ first :: rest).
  { rewrite <- Hsort. apply (elem_of_sort_by stays_before), elem_of_withDistance.
    by split. }
  pose proof (sort_by_sorted stays_before stays_before_total stays_before_trans
                (withDistance catalog latitude longitude)) as Hs.
  rewrite Hsort in Hs. apply StronglySorted_inv in Hs as [_ Hall].
  apply elem_of_cons in Hr as [<-|Hr]; [simpl; unfold distanceFrom; simpl; lra|].
  rewrite Forall_forall in Hall. specialize (Hall r Hr).
  apply stays_before_spec in Hall. subst r. cbn [distance] in Hall.
  by rewrite Hd, !or_zero_some in Hall.
Qed.

(** What the page does with the head of the ranking: it is flagged when
    its distance is non-zero and at most 2, and only then. *)
Lemma detection_rule catalog latitude longitude st first rest :
  sort_by stays_before (withDistance catalog latitude longitude) = first :: rest ->
  (distanceFrom latitude longitude first <> 0 /\
   distanceFrom latitude longitude first <= 2 ->
   nearestSub (onPosition catalog latitude longitude st) = Some first) /\
  (distanceFrom latitude longitude first = 0 \/
   2 < distanceFrom latitude longitude first ->
   nearestSub (onPosition catalog latitude longitude st) = nearestSub st).
Proof.
  intros Hsort. destruct (nearest_is_minimum _ _ _ _ _ Hsort) as [Hd _].
  unfold onPosition. rewrite Hsort. simpl. rewrite Hd, or_zero_some.
  unfold number_truthy, Rle_bool.
  destruct (Req_dec_T _ 0) as [H0|H0], (Rle_dec _ 2) as [H2|H2]; simpl;
    split; intros; try done; lra.
Qed.

(** C4.  The device stands exactly on the catalog coordinate of the first
    station (14.755, 100.095).  The head of the ranking then has distance
    0, which is within 2 km, and yet no station is flagged as detected. *)
Theorem device_on_station_not_detected :
  let st' := onPosition SUBSTATIONS 14.755 100.095 (initialState SUBSTATIONS) in
  (exists first,
      head (sortedSubstations st') = Some first /\
      distance first = Some 0 /\ 0 <= 2) /\
  nearestSub st' = None.
Proof.
  intros st'.
  destruct (sort_by stays_before (withDistance SUBSTATIONS 14.755 100.095))
    as [|first rest] eqn:Hsort.
  { apply (f_equal length) in Hsort. rewrite sort_by_length in Hsort.
    discriminate Hsort. }
  destruct (nearest_is_minimum _ _ _ _ _ Hsort) as [Hd Hmin].
  assert (H0 : distanceFrom 14.755 100.095 first = 0).
  { pose proof (calculateDistance_nonneg 14.755 100.095
                  (lat (station first)) (lng (station first))) as Hge.
    specialize (Hmin (mkSubstation "sam-chuk" "สามชุก" 14.755 100.095)).
    simpl in Hmin. rewrite calculateDistance_self in Hmin.
    unfold distanceFrom in *. apply Rle_antisym; [|done].
    apply Hmin. by left. }
  split.
  - exists first. unfold st'. rewrite sorted_onPosition, Hsort. simpl.
    rewrite Hd, H0. split; [done|]. split; [done|lra].
  - destruct (detection_rule SUBSTATIONS 14.755 100.095
                (initialState SUBSTATIONS) first rest Hsort) as [_ Hno].
    unfold st'. rewrite Hno; [done | by left].
Qed.

End GeoFacts.

(* ===================================================================== *)
(** * Facts about strings                                                 *)
(* ===================================================================== *)

Section StringFacts.
Local Open Scope string_scope.

Lemma string_app_nil (b : string) : "" +:+ b = b.
Proof. reflexivity. Qed.

Lemma string_app_cons (x : ascii) (a b : string) :
  String x a +:+ b = String x (a +:+ b).
Proof. reflexivity. Qed.

Lemma string_app_assoc (a b c : string) : (a +:+ b) +:+ c = a +:+ (b +:+ c).
Proof.
  induction a as [|x a IH]; [done|].
  by rewrite !string_app_cons, IH.
Qed.

Lemma string_app_length (a b : string) :
  String.length (a +:+ b) = (String.length a + String.length b)%nat.
Proof.
  induction a as [|x a IH]; [done|].
  rewrite string_app_cons. simpl. by rewrite IH.
Qed.

Lemma string_app_inj_r (a b t : string) : a +:+ t = b +:+ t -> a = b.
Proof.
  revert b. induction a as [|x a IH]; intros [|y b] H.
  - done.
  - apply (f_equal String.length) in H.
    rewrite string_app_nil, string_app_cons in H. simpl in H.
    rewrite string_app_length in H. lia.
  - apply (f_equal String.length) in H.
    rewrite string_app_nil, string_app_cons in H. simpl in H.
    rewrite string_app_length in H. lia.
  - rewrite !string_app_cons in H. injection H as -> H. f_equal. by apply IH.
Qed.
End StringFacts.

(* ===================================================================== *)
(** * More facts about the server                                         *)
(* ===================================================================== *)

Module ServerExtras.
Import Server ServerParts ServerFacts.

Local Open Scope Z_scope.
Local Open Scope string_scope.

(** ** The deduplication map *)

Section Dedupe.
Variables (env : Env) (host : Host).

(** X1.  After a submission for W and S accepted at [t] and any requests
    that do not submit under its key, a submission with the same W and S
    arriving at [t'] is accepted exactly when [t' - t >= 10000]: the window
    is closed at 9999 ms and open again at 10000 ms. *)
Theorem next_submission_accepted_iff reqA reqB between t t' s :
  employeeId reqB = employeeId reqA ->
  substationName reqB = substationName reqA ->
  accepted env host reqA t s ->
  Forall (fun r => submits_key (submissionKey reqA) r = false) between ->
  accepted env host reqB t'
    (serve env host between (snd (upload_inspection env host reqA t s)))
  <-> 10000 <= t' - t.
Proof.
  intros HW HS Hacc Hother. rewrite accepted_iff.
  rewrite (submissionKey_same _ _ HW HS), (entry_survives _ _ _ _ _ _ Hacc Hother).
  split.
  - intros H. by apply H.
  - by intros H last [= <-].
Qed.

Lemma submissionKey_dash a b c reqA reqB :
  employeeId reqA = Some a ->
  substationName reqA = Some (b +:+ "-" +:+ c) ->
  employeeId reqB = Some (a +:+ "-" +:+ b) ->
  substationName reqB = Some c ->
  submissionKey reqB = submissionKey reqA.
Proof.
  unfold submissionKey. intros -> -> -> ->. cbn [interpolate].
  by rewrite !string_app_assoc.
Qed.

(** X2.  The key is the plain concatenation of W, a dash and S, so two
    different pairs can share it: after worker [a] submitted for station
    [b-c], a submission of worker [a-b] for station [c] within the window
    is answered as a duplicate and nothing is stored for it. *)
Theorem different_pairs_same_key a b c reqA reqB t t' s :
  employeeId reqA = Some a ->
  substationName reqA = Some (b +:+ "-" +:+ c) ->
  employeeId reqB = Some (a +:+ "-" +:+ b) ->
  substationName reqB = Some c ->
  accepted env host reqA t s ->
  t' - t < 10000 ->
  upload_inspection env host reqB t' (snd (upload_inspection env host reqA t s))
  = (Ok duplicate_reply, snd (upload_inspection env host reqA t s)).
Proof.
  intros HWA HSA HWB HSB Hacc Hwin.
  apply upload_duplicate with (last := t); [|done].
  rewrite (submissionKey_dash a b c reqA reqB) by done.
  by apply accepted_records.
Qed.

Lemma handle_keeps_entries r s :
  dom (recentSubmissions (proc s))
  ⊆ dom (recentSubmissions (proc (snd (handle env host r s)))).
Proof.
  destruct r as [|req now|q]; simpl.
  - done.
  - unfold upload_inspection, bind, get_recentSubmissions, put_recentSubmissions.
    destruct (match recentSubmissions (proc s) !! submissionKey req with
              | Some lastTime => Z.ltb (now - lastTime) 10000
              | None => false
              end); [done|].
    rewrite process_keeps_recent. simpl. rewrite dom_insert_L. set_solver.
  - by rewrite (keeps_dashboard_stats env
                  (fun p => recentSubmissions p = recentSubmissions (proc s))).
Qed.

(** X3.  No request ever removes an entry of the map: the keys present
    before any sequence of requests are still present after it. *)
Theorem entries_never_evicted between s :
  dom (recentSubmissions (proc s))
  ⊆ dom (recentSubmissions (proc (serve env host between s))).
Proof.
  revert s. induction between as [|r rest IH]; intros s; simpl; [done|].
  etrans; [apply handle_keeps_entries | apply IH].
Qed.

End Dedupe.

(** ** What a computation does to the remote stores *)

Section WorldFrame.
Context (R : World -> World -> Prop) `{!Reflexive R} `{!Transitive R}.

Lemma respects_ret {A} (a : A) : respects R (ret a).
Proof. intros s. simpl. reflexivity. Qed.

Lemma respects_bind {A B} (m : M A) (k : A -> M B) :
  respects R m -> (forall a, respects R (k a)) -> respects R (bind m k).
Proof.
  intros Hm Hk s. unfold bind. specialize (Hm s).
  destruct (m s) as [[a|e] s1]; simpl in *; [|done].
  etrans; [exact Hm | apply Hk].
Qed.

Lemma respects_try_catch {A} (m : M A) (h : string -> M A) :
  respects R m -> (forall e, respects R (h e)) -> respects R (try_catch m h).
Proof.
  intros Hm Hh s. unfold try_catch. specialize (Hm s).
  destruct (m s) as [[a|e] s1]; simpl in *; [done|].
  etrans; [exact Hm | apply Hh].
Qed.

Lemma respects_for_of {A} (l : list A) (f : A -> M unit) :
  (forall x, respects R (f x)) -> respects R (for_of l f).
Proof.
  intros Hf. induction l as [|x l IH]; simpl.
  - apply respects_ret.
  - apply respects_bind; [apply Hf | by intros _].
Qed.

Lemma respects_remote {A} ev (act : World -> outcome A * World) :
  (forall w, R w (record_call ev w)) ->
  (forall w, R w (snd (act w))) ->
  respects R (remote ev act).
Proof.
  intros Hrec Hact s. unfold remote.
  destruct (head (faults (world s))) as [[msg|]|]; simpl; [apply Hrec|..];
    (specialize (Hact (record_call ev (world s)));
     destruct (act (record_call ev (world s))) as [r w']; simpl in *;
     etrans; [apply Hrec | exact Hact]).
Qed.

Lemma respects_local {A} (m : M A) :
  (forall s, world (snd (m s)) = world s) -> respects R m.
Proof. intros Hm s. rewrite Hm. reflexivity. Qed.
End WorldFrame.

#[local] Instance append_only_refl : Reflexive append_only.
Proof. by intros w. Qed.

#[local] Instance append_only_trans : Transitive append_only.
Proof.
  intros w1 w2 w3 (?&?&?) (?&?&?). repeat split; by etrans.
Qed.

#[local] Instance same_stores_refl : Reflexive same_stores.
Proof. by intros w. Qed.

#[local] Instance same_stores_trans : Transitive same_stores.
Proof.
  intros w1 w2 w3 (?&?&?&?) (?&?&?&?). repeat split; congruence.
Qed.

Lemma getDbClient_local env s : world (snd (getDbClient env s)) = world s.
Proof. unfold getDbClient. by repeat case_match. Qed.

Lemma getDriveService_local env host s :
  world (snd (getDriveService env host s)) = world s.
Proof. unfold getDriveService. by repeat case_match. Qed.

Lemma getSheetsService_local env host s :
  world (snd (getSheetsService env host s)) = world s.
Proof. unfold getSheetsService. by repeat case_match. Qed.

Section AppendOnly.
Variables (env : Env) (host : Host).

Lemma append_only_record ev w : append_only w (record_call ev w).
Proof. by repeat split. Qed.

Lemma append_only_store_evidence req now :
  respects append_only (store_evidence env host req now).
Proof.
  unfold store_evidence, find_or_create_folder.
  repeat (apply respects_bind; [apply _..| |intros ?]);
    repeat match goal with
           | |- respects _ (match ?l with [] => _ | _ :: _ => _ end) => destruct l
           end;
    try (apply respects_ret; apply _).
  all: try (apply respects_for_of; [apply _..|intros f]).
  all: apply respects_remote; try apply _; try apply append_only_record.
  all: intros w; simpl; repeat split; try done; by apply prefix_app_r.
Qed.

Lemma append_only_process_submission req now :
  respects append_only (process_submission env host req now).
Proof.
  unfold process_submission.
  apply respects_bind; [apply _..| |intros [|]; simpl].
  - apply respects_local; [apply _|]. apply getDriveService_local.
  - apply respects_try_catch; [apply _..| |intros ?; by apply respects_ret].
    apply respects_bind; [apply _..|apply append_only_store_evidence|intros fid].
    apply respects_bind; [apply _..| |intros _].
    { unfold log_to_database.
      apply respects_bind; [apply _..| |intros [|]].
      - apply respects_local; [apply _|]. apply getDbClient_local.
      - apply respects_try_catch; [apply _..| |intros ?; by apply respects_ret].
        apply respects_remote; [apply _..|apply append_only_record|].
        intros w. destruct (substationName req); simpl; [|done].
        repeat split; try done. by apply prefix_app_r.
      - by apply respects_ret. }
    apply respects_bind; [apply _..| |intros _; by apply respects_ret].
    unfold log_to_sheets.
    apply respects_bind; [apply _..| |intros b].
    + apply respects_local; [apply _|]. apply getSheetsService_local.
    + destruct (_ && _); [|by apply respects_ret].
      apply respects_try_catch; [apply _..| |intros ?; by apply respects_ret].
      apply respects_remote; [apply _..|apply append_only_record|].
      intros w. simpl. repeat split; try done. by apply prefix_app_r.
  - by apply respects_ret.
Qed.

Lemma same_stores_record ev w : same_stores w (record_call ev w).
Proof. by repeat split. Qed.

Lemma same_stores_dashboard_stats q :
  respects same_stores (dashboard_stats env q).
Proof.
  unfold dashboard_stats.
  apply respects_bind; [apply _..| |intros [|]; simpl].
  - apply respects_local; [apply _|]. apply getDbClient_local.
  - apply respects_try_catch; [apply _..| |intros ?; by apply respects_ret].
    apply respects_bind; [apply _..| |intros rows].
    { apply respects_remote; [apply _..|apply same_stores_record|].
      intros w. by destruct (where_clause _). }
    apply respects_bind; [apply _..| |intros n; by apply respects_ret].
    apply respects_remote; [apply _..|apply same_stores_record|].
    intros w. by destruct (where_clause _).
  - by apply respects_ret.
Qed.

Lemma append_only_handle r : respects append_only (handle env host r).
Proof.
  destruct r as [|req now|q]; simpl.
  - by apply respects_ret.
  - unfold upload_inspection.
    apply respects_bind; [apply _..|by intros s|intros recent].
    destruct (match recent !! _ with Some _ => _ | None => _ end);
      [by apply respects_ret|].
    apply respects_bind; [apply _..|by intros s|intros _].
    apply append_only_process_submission.
  - intros s. destruct (same_stores_dashboard_stats q s) as (Hd & Hr & _ & Hs).
    repeat split; by rewrite ?Hd, ?Hr, ?Hs.
Qed.

(** X4.  The server never deletes or rewrites what it stored: after any
    sequence of requests, whatever the faults, the Drive items, the log
    rows and the spreadsheet rows it started with are still there, in the
    same order, in front of what was added. *)
Theorem stores_are_append_only between s :
  append_only (world s) (world (serve env host between s)).
Proof.
  revert s. induction between as [|r rest IH]; intros s; simpl; [done|].
  etrans; [apply append_only_handle | apply IH].
Qed.

(** X5.  The dashboard route only reads: whatever the query, the state and
    the faults, it leaves the Drive items, the log rows, the row counter,
    the spreadsheet rows and the deduplication map as they were. *)
Theorem dashboard_stats_reads_only q s :
  same_stores (world s) (world (snd (dashboard_stats env q s))) /\
  recentSubmissions (proc (snd (dashboard_stats env q s)))
  = recentSubmissions (proc s).
Proof.
  split; [apply same_stores_dashboard_stats|].
  by apply (keeps_dashboard_stats env
              (fun p => recentSubmissions p = recentSubmissions (proc s))).
Qed.

End AppendOnly.

(** ** Storage *)

Section Storage.
Variables (env : Env) (host : Host).

Lemma upload_without_drive req now s :
  getGoogleAuth env host = false ->
  drive (proc s) = false ->
  process_submission env host req now s
  = (Ok (error_reply "Google Drive service not configured"), s).
Proof.
  intros Hauth Hdrive. unfold process_submission, bind, getDriveService.
  by rewrite Hdrive, Hauth.
Qed.

Lemma drive_needs_credentials s :
  getGoogleAuth env host = false ->
  reachable env host s -> drive (proc s) = false.
Proof.
  intros Hauth. induction 1 as [w|s Hs IH|s r Hs IH|s w Hs IH]; simpl; try done.
  - by apply (keeps_initDb env (fun p => drive p = false)).
  - destruct r as [|req now|q]; simpl.
    + done.
    + unfold upload_inspection, bind, get_recentSubmissions,
        put_recentSubmissions.
      destruct (match recentSubmissions (proc s) !! submissionKey req with
                | Some lastTime => Z.ltb (now - lastTime) 10000
                | None => false
                end); [done|].
      by rewrite upload_without_drive.
    + by apply (keeps_dashboard_stats env (fun p => drive p = false)).
Qed.

(** X6.  Without Google credentials (no refresh token, no usable service
    account), in every state the process can reach, an accepted submission
    is answered with HTTP 500 "Google Drive service not configured"; no
    remote call is made, but its arrival time stays in the deduplication
    map. *)
Theorem upload_without_credentials req now s :
  getGoogleAuth env host = false ->
  reachable env host s ->
  accepted env host req now s ->
  upload_inspection env host req now s
  = (Ok (error_reply "Google Drive service not configured"),
     past_dedupe req now s).
Proof.
  intros Hauth Hreach Hacc.
  rewrite (upload_pass env host req now s
             (proj1 (accepted_iff env host req now s) Hacc)).
  apply upload_without_drive; [done|].
  exact (drive_needs_credentials s Hauth Hreach).
Qed.

(** *** The upload loop *)

Lemma create_media_ok f parent s :
  head (faults (world s)) = None \/ head (faults (world s)) = Some None ->
  drive_files_create_media f parent s
  = (Ok tt,
     set_world
       (drive_add
          (mkDriveItem (fresh_drive_id (drive_next (world s))) (originalname f)
                       (mimetype f) parent false (buffer f))
          (record_call (EvDriveUpload (originalname f) (mimetype f) parent)
                       (world s))) s).
Proof.
  intros H. unfold drive_files_create_media, remote.
  by destruct H as [-> | ->].
Qed.

Lemma create_media_fail f parent s msg :
  head (faults (world s)) = Some (Some msg) ->
  drive_files_create_media f parent s
  = (Throw msg,
     set_world (record_call (EvDriveUpload (originalname f) (mimetype f) parent)
                            (world s)) s).
Proof. intros H. unfold drive_files_create_media, remote. by rewrite H. Qed.

(** The part of the state that the upload loop leaves alone. *)
Lemma upload_files_all (l : list UploadedFile) parent s :
  Forall (fun o => o = None) (take (length l) (faults (world s))) ->
  exists s' new,
    upload_files l parent s = (Ok tt, s') /\
    drive_items (world s') = (drive_items (world s) ++ new)%list /\
    Forall2 (stored_as parent) l new /\
    proc s' = proc s /\
    faults (world s') = drop (length l) (faults (world s)).
Proof.
  revert s. induction l as [|f l IH]; intros s Hscript; simpl.
  - exists s, []. repeat split; try done. by rewrite app_nil_r.
  - unfold upload_files in *. simpl. unfold bind.
    rewrite create_media_ok; cycle 1.
    { destruct (faults (world s)) as [|o rest]; [by left|].
      simpl in Hscript. apply Forall_cons in Hscript as [-> _]. by right. }
    match goal with
    | |- context [for_of l _ ?s1] =>
        destruct (IH s1) as (s' & new & -> & Hitems & Hnew & Hproc & Hfaults)
    end.
    { simpl. destruct (faults (world s)) as [|o rest]; simpl in *.
      - rewrite take_nil. constructor.
      - by apply Forall_cons in Hscript as [_ ?]. }
    eexists s', (_ :: new). split; [done|]. simpl in *.
    rewrite Hitems, <- app_assoc. split; [done|].
    split; [by constructor|]. split; [done|].
    rewrite Hfaults. destruct (faults (world s)); simpl; by rewrite ?drop_nil.
Qed.

Lemma upload_files_until (l : list UploadedFile) parent s k msg :
  (k < length l)%nat ->
  Forall (fun o => o = None) (take k (faults (world s))) ->
  faults (world s) !! k = Some (Some msg) ->
  exists s' new,
    upload_files l parent s = (Throw msg, s') /\
    drive_items (world s') = (drive_items (world s) ++ new)%list /\
    Forall2 (stored_as parent) (take k l) new /\
    proc s' = proc s.
Proof.
  revert l s. induction k as [|k IH]; intros [|f l] s Hk Hscript Hfail;
    simpl in Hk; try lia; unfold upload_files in *; simpl; unfold bind.
  - rewrite (create_media_fail _ _ _ msg).
    + eexists _, []. repeat split; simpl; [by rewrite app_nil_r | constructor].
    + by destruct (faults (world s)).
  - destruct (faults (world s)) as [|o rest] eqn:Hf; [done|].
    simpl in Hscript, Hfail. apply Forall_cons in Hscript as [-> Hrest].
    rewrite create_media_ok by (rewrite Hf; by right).
    match goal with
    | |- context [for_of l _ ?s1] =>
        destruct (IH l s1) as (s' & new & -> & Hitems & Hnew & Hproc)
    end; [lia | by simpl; rewrite Hf | by simpl; rewrite Hf |].
    eexists s', (_ :: new). split; [done|]. simpl in *.
    rewrite Hitems, <- app_assoc. split; [done|]. split; [by constructor|done].
Qed.

Lemma store_evidence_split req now s :
  store_evidence env host req now s
  = bind (resolve_folders env host req now)
         (fun daily => bind (upload_files (files req) daily)
                            (fun _ => ret daily)) s.
Proof.
  unfold store_evidence, resolve_folders, upload_files, bind.
  by repeat case_match.
Qed.

Lemma log_to_database_drive req fid s :
  drive_items (world (snd (log_to_database env req fid s)))
  = drive_items (world s).
Proof.
  unfold log_to_database, bind, getDbClient, try_catch, db_insert, remote, ret.
  repeat (case_match; simplify_eq/=; try done).
Qed.

Lemma log_to_sheets_drive req now fid s :
  drive_items (world (snd (log_to_sheets env host req now fid s)))
  = drive_items (world s).
Proof.
  unfold log_to_sheets, bind, getSheetsService, try_catch, sheets_append,
    remote, ret.
  repeat (case_match; simplify_eq/=; try done).
Qed.

(** X7.  No rollback.  Once the folders are resolved, if the first [k]
    uploads go through and the next Drive call is rejected, the request is
    answered with HTTP 500 carrying that message, and the [k] files already
    uploaded stay in the daily folder, under their names and types. *)
Theorem partial_upload_is_kept req now s daily s2 k msg :
  fst (getDriveService env host s) = Ok true ->
  resolve_folders env host req now (snd (getDriveService env host s))
  = (Ok daily, s2) ->
  (k < length (files req))%nat ->
  Forall (fun o => o = None) (take k (faults (world s2))) ->
  faults (world s2) !! k = Some (Some msg) ->
  exists new,
    fst (process_submission env host req now s) = Ok (error_reply msg) /\
    drive_items (world (snd (process_submission env host req now s)))
    = (drive_items (world s2) ++ new)%list /\
    Forall2 (stored_as daily) (take k (files req)) new.
Proof.
  intros Hdrive Hresolve Hk Hscript Hfail.
  destruct (upload_files_until (files req) daily s2 k msg Hk Hscript Hfail)
    as (s3 & new & Hloop & Hitems & Hnew & _).
  exists new. unfold process_submission, bind, try_catch, ret.
  destruct (getDriveService env host s) as [r s0]. simpl in Hdrive, Hresolve.
  subst r. simpl. rewrite store_evidence_split. unfold bind.
  rewrite Hresolve, Hloop. simpl. by rewrite Hitems.
Qed.

(** X8.  When the folders are resolved and no upload is rejected, the
    request is answered with the daily folder, and every file of the form
    is in that folder, in the order of the form, under its original name
    and declared type; the two logging steps add nothing to Drive. *)
Theorem every_file_is_stored req now s daily s2 :
  fst (getDriveService env host s) = Ok true ->
  resolve_folders env host req now (snd (getDriveService env host s))
  = (Ok daily, s2) ->
  Forall (fun o => o = None) (take (length (files req)) (faults (world s2))) ->
  exists new,
    fst (process_submission env host req now s) = Ok (success_reply daily) /\
    drive_items (world (snd (process_submission env host req now s)))
    = (drive_items (world s2) ++ new)%list /\
    Forall2 (stored_as daily) (files req) new.
Proof.
  intros Hdrive Hresolve Hscript.
  destruct (upload_files_all (files req) daily s2 Hscript)
    as (s3 & new & Hloop & Hitems & Hnew & _).
  exists new. unfold process_submission, bind, try_catch, ret.
  destruct (getDriveService env host s) as [r s0]. simpl in Hdrive, Hresolve.
  subst r. simpl. rewrite store_evidence_split. unfold bind.
  rewrite Hresolve, Hloop. simpl.
  pose proof (log_to_database_ok env req daily s3) as Hok.
  pose proof (log_to_database_drive req daily s3) as Hd.
  destruct (log_to_database env req daily s3) as [[[]|?] s4]; [|done].
  pose proof (log_to_sheets_ok env host req now daily s4) as Hok'.
  pose proof (log_to_sheets_drive req now daily s4) as Hd'.
  destruct (log_to_sheets env host req now daily s4) as [[[]|?] s5]; [|done].
  simpl in *. split; [done|]. split; [|done]. by rewrite Hd', Hd, Hitems.
Qed.

(** *** Folder resolution *)

Lemma hit_survives_append name parent (items more : list DriveItem) it hits :
  filter (fun x => folder_matches name parent x) items = it :: hits ->
  exists hits',
    filter (fun x => folder_matches name parent x) (items ++ more)%list
    = it :: hits'.
Proof. intros H. rewrite filter_app, H. by eexists. Qed.

Lemma find_or_create_hit name metadataName parent s it hits :
  faults (world s) = [] ->
  filter (fun x => folder_matches name parent x) (drive_items (world s))
  = it :: hits ->
  exists s',
    find_or_create_folder name metadataName parent s = (Ok (item_id it), s') /\
    drive_items (world s') = drive_items (world s) /\
    faults (world s') = [] /\ proc s' = proc s.
Proof.
  intros Hf Hhit. unfold find_or_create_folder, bind, drive_files_list.
  rewrite remote_calm by done. simpl. rewrite Hhit. simpl.
  eexists. repeat split; simpl; by rewrite ?Hf.
Qed.

(** After a fault-free resolution the folder is found by the same query. *)
Lemma find_or_create_resolved name parent s :
  faults (world s) = [] ->
  exists id s' it hits more,
    find_or_create_folder name name parent s = (Ok id, s') /\
    drive_items (world s') = (drive_items (world s) ++ more)%list /\
    filter (fun x => folder_matches name parent x) (drive_items (world s'))
    = it :: hits /\
    item_id it = id /\
    faults (world s') = [] /\ proc s' = proc s.
Proof.
  intros Hf.
  destruct (filter (fun x => folder_matches name parent x)
                   (drive_items (world s))) as [|it hits] eqn:Hhit.
  - unfold find_or_create_folder, bind, drive_files_list.
    rewrite remote_calm by done. simpl. rewrite Hhit. simpl.
    unfold drive_files_create_folder. rewrite remote_calm by (simpl; by rewrite Hf).
    simpl. eexists _, _, _, [], [_]. repeat split; simpl.
    + rewrite filter_app, Hhit. simpl. rewrite filter_cons_True; [done|].
      unfold folder_matches. simpl. by rewrite !String.eqb_refl.
    + done.
    + by rewrite Hf.
  - destruct (find_or_create_hit name name parent s it hits Hf Hhit)
      as (s' & Hrun & Hitems & Hf' & Hproc).
    exists (item_id it), s', it, hits, []. rewrite Hitems, app_nil_r.
    by repeat split.
Qed.

Lemma store_evidence_run req now s main sA daily sB s1 :
  find_or_create_folder (interpolate (substationName req))
    (default UNTITLED (substationName req))
    (or_default (GOOGLE_DRIVE_PARENT_FOLDER_ID env) DEFAULT_PARENT_FOLDER) s
  = (Ok main, sA) ->
  find_or_create_folder
    (interpolate (substationName req) +:+ "_"
       +:+ th_dateStr host (client_timestamp req) now)
    (interpolate (substationName req) +:+ "_"
       +:+ th_dateStr host (client_timestamp req) now)
    main sA
  = (Ok daily, sB) ->
  upload_files (files req) daily sB = (Ok tt, s1) ->
  store_evidence env host req now s = (Ok daily, s1).
Proof.
  intros HM HD HU. unfold upload_files in HU.
  unfold store_evidence, bind. by rewrite HM, HD, HU.
Qed.

(** X9.  Folder resolution is idempotent in a fault-free sequence: an
    upload for a substation and a day, followed by another upload for the
    same substation (the name present) and the same day, resolves to the
    same daily folder, and the second upload adds nothing to Drive but its
    own files. *)
Theorem second_upload_reuses_the_folder reqA reqB nowA nowB sn s :
  faults (world s) = [] ->
  substationName reqA = Some sn ->
  substationName reqB = Some sn ->
  th_dateStr host (client_timestamp reqA) nowA
  = th_dateStr host (client_timestamp reqB) nowB ->
  exists fid s1 s2 new,
    store_evidence env host reqA nowA s = (Ok fid, s1) /\
    store_evidence env host reqB nowB s1 = (Ok fid, s2) /\
    drive_items (world s2) = (drive_items (world s1) ++ new)%list /\
    Forall2 (stored_as fid) (files reqB) new.
Proof.
  intros Hf HA HB Hdate.
  set (parent := or_default (GOOGLE_DRIVE_PARENT_FOLDER_ID env)
                            DEFAULT_PARENT_FOLDER).
  set (dailyName := sn +:+ "_" +:+ th_dateStr host (client_timestamp reqA) nowA).
  (* first upload *)
  destruct (find_or_create_resolved sn parent s Hf)
    as (main & sA & itM & hitsM & moreA & HrunM & HitemsA & HhitM & HidM & HfA & _).
  destruct (find_or_create_resolved dailyName main sA HfA)
    as (daily & sB & itD & hitsD & moreB & HrunD & HitemsB & HhitD & HidD & HfB & _).
  destruct (upload_files_all (files reqA) daily sB)
    as (s1 & new1 & HrunU & Hitems1 & _ & _ & Hf1).
  { rewrite HfB, take_nil. constructor. }
  rewrite HfB, drop_nil in Hf1.
  (* the two folders are still found afterwards *)
  assert (HhitM1 : exists hits,
             filter (fun x => folder_matches sn parent x) (drive_items (world s1))
             = itM :: hits).
  { rewrite Hitems1, HitemsB, <- app_assoc. by eapply hit_survives_append. }
  assert (HhitD1 : exists hits,
             filter (fun x => folder_matches dailyName main x)
                    (drive_items (world s1)) = itD :: hits).
  { rewrite Hitems1. by eapply hit_survives_append. }
  destruct HhitM1 as [hitsM1 HhitM1]. destruct HhitD1 as [hitsD1 HhitD1].
  (* second upload *)
  destruct (find_or_create_hit sn sn parent s1 itM hitsM1 Hf1 HhitM1)
    as (sC & HrunM2 & HitemsC & HfC & _).
  rewrite HidM in HrunM2. rewrite <- HitemsC in HhitD1.
  destruct (find_or_create_hit dailyName dailyName main sC itD hitsD1 HfC HhitD1)
    as (sD & HrunD2 & HitemsD & HfD & _).
  rewrite HidD in HrunD2.
  destruct (upload_files_all (files reqB) daily sD)
    as (s2 & new & HrunU2 & Hitems2 & Hnew & _).
  { rewrite HfD, take_nil. constructor. }
  exists daily, s1, s2, new. split; [|split; [|split]].
  - apply (store_evidence_run reqA nowA s main sA daily sB s1);
      rewrite ?HA; done.
  - apply (store_evidence_run reqB nowB s1 main sC daily sD s2);
      rewrite ?HB, <- ?Hdate; done.
  - by rewrite Hitems2, HitemsD, HitemsC.
  - done.
Qed.

(** *** The spreadsheet row *)

Lemma store_evidence_sheet req now :
  respects (same_on sheet_rows) (store_evidence env host req now).
Proof.
  assert (Hrefl : Reflexive (same_on sheet_rows)) by by intros w.
  assert (Htrans : Transitive (same_on sheet_rows)).
  { intros w1 w2 w3. unfold same_on. congruence. }
  unfold store_evidence, find_or_create_folder.
  repeat (apply respects_bind; [done..| |intros ?]);
    repeat match goal with
           | |- respects _ (match ?l with [] => _ | _ :: _ => _ end) => destruct l
           end;
    try (by apply respects_ret).
  all: try (apply respects_for_of; [done..|intros f]).
  all: apply respects_remote; try done.
Qed.

Lemma log_to_database_sheet req fid s :
  faults (world s) = [] ->
  sheet_rows (world (snd (log_to_database env req fid s))) = sheet_rows (world s)
  /\ faults (world (snd (log_to_database env req fid s))) = [].
Proof.
  intros Hf. unfold log_to_database, bind, getDbClient.
  destruct (dbClient (proc s)); [|destruct (truthy (DATABASE_URL env))]; simpl;
    try (by split);
    unfold try_catch, db_insert; rewrite remote_calm by done;
    destruct (substationName req); simpl; by rewrite Hf.
Qed.

Lemma or_default_nonempty o d : d <> "" -> or_default o d <> "".
Proof.
  intros Hd. unfold or_default. destruct o as [x|]; [|done].
  destruct (String.eqb_spec x ""); done.
Qed.

(** X10.  In a fault-free run with the Google services configured, the
    request is answered with its daily folder and the spreadsheet gains
    exactly one row of seven cells: a non-empty worker cell, the substation
    name (or the "not specified" text), the two coordinates (or "0"), the
    link to that daily folder and the status "Completed". *)
Theorem one_sheet_row_per_submission req now s :
  getGoogleAuth env host = true ->
  faults (world s) = [] ->
  exists fid worker,
    fst (process_submission env host req now s) = Ok (success_reply fid) /\
    worker <> "" /\
    sheet_rows (world (snd (process_submission env host req now s)))
    = (sheet_rows (world s) ++
       [[ th_dateTimeStr host (client_timestamp req) now;
          worker;
          or_default (substationName req) NOT_SPECIFIED;
          or_default (lat req) "0";
          or_default (lng req) "0";
          "https://drive.google.com/drive/folders/" +:+ fid;
          "Completed" ]])%list.
Proof.
  intros Hauth Hf. unfold process_submission, bind, try_catch, ret.
  destruct (getDriveService_configured env host s Hauth) as (s0 & -> & Hw).
  simpl.
  destruct (store_evidence_calm env host req now s0) as (fid & s1 & Hrun & H1);
    [by rewrite Hw|].
  rewrite Hrun. destruct H1 as (_ & _ & _ & _ & Hf1).
  pose proof (log_to_database_ok env req fid s1) as Hok.
  destruct (log_to_database_sheet req fid s1 Hf1) as [Hsheet Hf2].
  destruct (log_to_database env req fid s1) as [[[]|?] s2]; [|done].
  simpl in Hsheet, Hf2.
  exists fid.
  unfold log_to_sheets, bind, getSheetsService, try_catch. rewrite Hauth.
  assert (Hid : String.eqb (or_default (GOOGLE_SHEET_ID env) DEFAULT_SHEET) ""
                = false).
  { apply String.eqb_neq. by apply or_default_nonempty. }
  set (worker := if truthy (employeeId req)
                      && negb (String.eqb (trim (interpolate (employeeId req))) "")
                 then trim (interpolate (employeeId req)) else NOT_SPECIFIED).
  exists worker.
  assert (Hworker : worker <> "").
  { unfold worker. destruct (truthy (employeeId req)); simpl; [|done].
    destruct (String.eqb_spec (trim (interpolate (employeeId req))) ""); done. }
  assert (Hsame : sheet_rows (world s1) = sheet_rows (world s)).
  { pose proof (store_evidence_sheet req now s0) as Hs. unfold same_on in Hs.
    rewrite Hrun in Hs. simpl in Hs. by rewrite Hs, Hw. }
  destruct (sheets (proc s2)); simpl; rewrite Hid; simpl;
    unfold sheets_append; rewrite remote_calm by done; simpl;
    (split; [done|]; split; [done|]); by rewrite Hsheet, Hsame.
Qed.

End Storage.

(** ** The dashboard route *)

Section DashboardRoute.
Variable env : Env.

Lemma digit_of_pretty_N_char (d : N) :
  (d < 10)%N -> digit_of (pretty_N_char d) = Some (Z.of_N d).
Proof.
  intros Hd.
  assert (d = 0 \/ d = 1 \/ d = 2 \/ d = 3 \/ d = 4 \/ d = 5 \/ d = 6
          \/ d = 7 \/ d = 8 \/ d = 9)%N as Hcases by lia.
  repeat (destruct Hcases as [->|Hcases]; [reflexivity|]). by subst.
Qed.

(** Reading back the decimal digits that [pretty] prints. *)
Lemma digits_from_pretty_N_go (x : N) :
  exists k, forall acc s,
    digits_from acc (pretty_N_go x s) = digits_from (acc * k + Z.of_N x) s.
Proof.
  induction (N.lt_wf_0 x) as [x _ IH].
  destruct (decide (x = 0)%N) as [->|Hx].
  - exists 1. intros acc s. rewrite pretty_N_go_0. f_equal. lia.
  - destruct (IH (x `div` 10)%N) as [k Hk]; [apply N.div_lt; lia|].
    exists (10 * k). intros acc s.
    rewrite pretty_N_go_step by lia. rewrite Hk. simpl.
    rewrite digit_of_pretty_N_char by (apply N.mod_lt; lia).
    f_equal. pose proof (N.div_mod x 10). lia.
Qed.

Lemma pg_integer_not_dash c rest :
  c <> "-"%char -> pg_integer (String c rest) = digits_from 0 (String c rest).
Proof.
  intros Hc. destruct c as [[|] [|] [|] [|] [|] [|] [|] [|]]; done.
Qed.

Lemma pg_integer_pretty (n : nat) : pg_integer (pretty n) = Some (Z.of_nat n).
Proof.
  unfold pretty, pretty_nat, pretty, pretty_N.
  destruct (decide (N.of_nat n = 0%N)) as [H0|H0].
  - assert (n = 0%nat) as -> by lia. reflexivity.
  - destruct (digits_from_pretty_N_go (N.of_nat n)) as [k Hk].
    specialize (Hk 0 ""). simpl in Hk.
    destruct (pretty_N_go (N.of_nat n) "") as [|c rest] eqn:Hp.
    + simpl in Hk. injection Hk as Hk. lia.
    + rewrite pg_integer_not_dash.
      * rewrite Hk. f_equal. lia.
      * intros ->. by apply (pretty_N_go_ne_dash (N.of_nat n) "" rest).
Qed.

(** X11.  The query that the dashboard page sends for month index [m]
    (0 for January) and year [y], served with a database client and no
    fault: [recent] holds only rows of month [m + 1] of year [y], at most
    100 of them, the latest first, and [total] is the number of distinct
    substation names among all the rows of that month. *)
Theorem dashboard_page_query_window selectedMonth selectedYear s :
  fst (getDbClient env s) = Ok true ->
  faults (world s) = [] ->
  let window :=
    filter (fun r => in_month (Z.of_nat (selectedMonth + 1))
                              (Z.of_nat selectedYear) r)
           (db_rows (world s)) in
  let rows := take 100 (sort_by newer_first window) in
  fst (dashboard_stats env (Client.statsQuery selectedMonth selectedYear) s)
    = Ok (stats_reply
            (Z.of_nat (length (remove_dups (map substation_name window)))) rows)
  /\ Forall (fun r => ts_month (timestamp r) = Z.of_nat (selectedMonth + 1) /\
                      ts_year (timestamp r) = Z.of_nat selectedYear) rows
  /\ (length rows <= 100)%nat
  /\ StronglySorted (fun a b => ts_leb (timestamp b) (timestamp a) = true) rows.
Proof.
  intros Hclient Hf.
  apply (dashboard_stats_window env
           (Client.statsQuery selectedMonth selectedYear) s
           (pretty (selectedMonth + 1)%nat) (pretty selectedYear));
    try done; apply pg_integer_pretty.
Qed.

(** X12.  The dashboard route never lets an exception out, and its error
    reply never carries the message of the database: the reply is the empty
    statistics, the statistics, or HTTP 500 with the fixed text "Failed to
    fetch stats". *)
Theorem dashboard_stats_replies q s :
  exists resp,
    fst (dashboard_stats env q s) = Ok resp /\
    (resp = empty_stats_reply \/
     resp = error_reply "Failed to fetch stats" \/
     exists total rows, resp = stats_reply total rows).
Proof.
  unfold dashboard_stats, bind.
  destruct (getDbClient env s) as [[[|]|e] s0] eqn:E; simpl.
  - unfold try_catch, ret, bind.
    destruct (db_select _ s0) as [[rows|e] s1]; simpl.
    + destruct (db_count_distinct _ s1) as [[n|e] s2]; simpl.
      * eexists. split; [done|]. right. right. by eexists _, _.
      * eexists. split; [done|]. right. by left.
    + eexists. split; [done|]. right. by left.
  - eexists. split; [done|]. by left.
  - unfold getDbClient in E. by repeat case_match.
Qed.

End DashboardRoute.

(** ** The OAuth client *)

Lemma strip_trailing_slash_app (u : string) :
  strip_trailing_slash (u +:+ "/") = u.
Proof.
  induction u as [|c u IH]; [done|].
  rewrite string_app_cons. simpl. rewrite IH.
  by destruct (u +:+ "/") eqn:E; [destruct u|].
Qed.

(** X13.  Without [GOOGLE_REDIRECT_URI], an [APP_URL] written with a slash
    at its end gives the redirect URI of the same address without it: the
    callback path is never preceded by two slashes that come from the
    configuration. *)
Theorem redirectUri_drops_trailing_slash u client secret :
  redirectUri (mkOAuthEnv (Some (u +:+ "/")) None client secret)
  = u +:+ "/api/auth/google/callback".
Proof.
  assert (Hurl : or_default (Some (u +:+ "/")) "" = u +:+ "/")
    by (by destruct u).
  unfold redirectUri. cbn [APP_URL GOOGLE_REDIRECT_URI].
  by rewrite Hurl, strip_trailing_slash_app.
Qed.

(** ** Concrete runs *)

Lemma next_submission_accepted_iff_witness :
  accepted sample_env sample_host sample_submission 11000
    (serve sample_env sample_host sample_traffic
       (snd (upload_inspection sample_env sample_host sample_submission 1000
               (boot (sample_world [])))))
  <-> 10000 <= 11000 - 1000.
Proof.
  apply (next_submission_accepted_iff sample_env sample_host sample_submission
           sample_submission sample_traffic 1000 11000 (boot (sample_world [])));
    [ reflexivity | reflexivity | intros H; vm_compute in H; discriminate H
    | repeat constructor ].
Defined.

(** Worker 12 at station 34-56, then worker 12-34 at station 56 two seconds
    later. *)
Lemma different_pairs_same_key_witness :
  upload_inspection sample_env sample_host
    (mkSubmission (Some "12-34") (Some "56") None None None []) 3000
    (snd (upload_inspection sample_env sample_host
            (mkSubmission (Some "12") (Some "34-56") None None None []) 1000
            (boot (sample_world []))))
  = (Ok duplicate_reply,
     snd (upload_inspection sample_env sample_host
            (mkSubmission (Some "12") (Some "34-56") None None None []) 1000
            (boot (sample_world [])))).
Proof.
  apply (different_pairs_same_key sample_env sample_host "12" "34" "56"
           (mkSubmission (Some "12") (Some "34-56") None None None [])
           (mkSubmission (Some "12-34") (Some "56") None None None [])
           1000 3000 (boot (sample_world [])));
    [ reflexivity | reflexivity | reflexivity | reflexivity
    | intros H; vm_compute in H; discriminate H | lia ].
Defined.

Lemma upload_without_credentials_witness :
  upload_inspection env_without_credentials sample_host sample_submission 1000
    (boot (sample_world []))
  = (Ok (error_reply "Google Drive service not configured"),
     past_dedupe sample_submission 1000 (boot (sample_world []))).
Proof.
  apply (upload_without_credentials env_without_credentials sample_host
           sample_submission 1000 (boot (sample_world [])));
    [ reflexivity | apply reach_boot
    | intros H; vm_compute in H; discriminate H ].
Defined.

(** Two photos; the four folder calls and the first upload go through, the
    second upload is rejected. *)
Lemma partial_upload_is_kept_witness :
  let s := boot (sample_world [None; None; None; None; None;
                               Some "quota exceeded"]) in
  let s2 := snd (resolve_folders sample_env sample_host two_photos 1000
                   (snd (getDriveService sample_env sample_host s))) in
  exists new,
    fst (process_submission sample_env sample_host two_photos 1000 s)
    = Ok (error_reply "quota exceeded") /\
    drive_items (world (snd (process_submission sample_env sample_host
                               two_photos 1000 s)))
    = (drive_items (world s2) ++ new)%list /\
    Forall2 (stored_as "drive-1") (take 1 (files two_photos)) new.
Proof.
  intros s s2.
  apply (partial_upload_is_kept sample_env sample_host two_photos 1000 s
           "drive-1" s2 1%nat "quota exceeded");
    [ reflexivity | reflexivity | simpl; lia | repeat constructor
    | reflexivity ].
Defined.

Lemma every_file_is_stored_witness :
  let s := boot (sample_world []) in
  let s2 := snd (resolve_folders sample_env sample_host two_photos 1000
                   (snd (getDriveService sample_env sample_host s))) in
  exists new,
    fst (process_submission sample_env sample_host two_photos 1000 s)
    = Ok (success_reply "drive-1") /\
    drive_items (world (snd (process_submission sample_env sample_host
                               two_photos 1000 s)))
    = (drive_items (world s2) ++ new)%list /\
    Forall2 (stored_as "drive-1") (files two_photos) new.
Proof.
  intros s s2.
  apply (every_file_is_stored sample_env sample_host two_photos 1000 s
           "drive-1" s2);
    [ reflexivity | reflexivity | constructor ].
Defined.

Lemma second_upload_reuses_the_folder_witness :
  exists fid s1 s2 new,
    store_evidence sample_env sample_host sample_submission 1000
      (boot (sample_world [])) = (Ok fid, s1) /\
    store_evidence sample_env sample_host two_photos 20000 s1 = (Ok fid, s2) /\
    drive_items (world s2) = (drive_items (world s1) ++ new)%list /\
    Forall2 (stored_as fid) (files two_photos) new.
Proof.
  apply (second_upload_reuses_the_folder sample_env sample_host
           sample_submission two_photos 1000 20000 "สามชุก"
           (boot (sample_world [])));
    reflexivity.
Defined.

Lemma one_sheet_row_per_submission_witness :
  exists fid worker,
    fst (process_submission sample_env sample_host sample_submission 1000
           (boot (sample_world []))) = Ok (success_reply fid) /\
    worker <> "" /\
    sheet_rows (world (snd (process_submission sample_env sample_host
                              sample_submission 1000 (boot (sample_world [])))))
    = (sheet_rows (world (boot (sample_world []))) ++
       [[ th_dateTimeStr sample_host (client_timestamp sample_submission) 1000;
          worker;
          or_default (substationName sample_submission) NOT_SPECIFIED;
          or_default (lat sample_submission) "0";
          or_default (lng sample_submission) "0";
          "https://drive.google.com/drive/folders/" +:+ fid;
          "Completed" ]])%list.
Proof.
  apply (one_sheet_row_per_submission sample_env sample_host sample_submission
           1000 (boot (sample_world [])));
    reflexivity.
Defined.

(** February 2026 on the sample log: the two rows of the month, the later
    one first, for one substation. *)
Lemma dashboard_page_query_window_witness :
  fst (dashboard_stats sample_env (Client.statsQuery 1 2026)
         (boot sample_log_world))
  = Ok (stats_reply 1
          [ mkLogRow 3 "654321" "สามชุก" (mkTimestamp 2026 2 700000)
                     (Some "14.755") (Some "100.095") "drive-5" "completed";
            mkLogRow 2 "123456" "สามชุก" (mkTimestamp 2026 2 100000)
                     (Some "14.755") (Some "100.095") "drive-3" "completed" ]).
Proof.
  exact (proj1 (dashboard_page_query_window sample_env 1 2026
                  (boot sample_log_world) eq_refl eq_refl)).
Defined.

End ServerExtras.

(* ===================================================================== *)
(** * Facts about the client pages                                        *)
(* ===================================================================== *)

Module ClientFacts.
Import Client.

Local Open Scope string_scope.

(** ** LoginPage *)

Lemma strip_non_digits_all_digits (v : string) :
  all_digits (strip_non_digits v) = true.
Proof.
  induction v as [|c v IH]; simpl; [done|].
  destruct (is_digit c) eqn:Hc; simpl; [by rewrite Hc|done].
Qed.

Lemma handleSubmit_Some id x :
  handleSubmit id = Some x -> x = id /\ String.length id = 6%nat.
Proof.
  unfold handleSubmit. destruct (Nat.eqb_spec (String.length id) 6); [|done].
  by intros [= <-].
Qed.

Lemma login_id_facts value id :
  handleSubmit (onChange value) = Some id ->
  String.length id = 6%nat /\ all_digits id = true.
Proof.
  intros H. apply handleSubmit_Some in H as [-> Hlen]. split; [done|].
  apply strip_non_digits_all_digits.
Qed.

(** X14.  Whatever is typed or pasted into the login field, the identifier
    that the form hands to [onLogin] is made of exactly six decimal
    digits. *)
Theorem login_id_is_six_digits value id :
  handleSubmit (onChange value) = Some id ->
  String.length id = 6%nat /\ all_digits id = true.
Proof. apply login_id_facts. Qed.

(** ** App *)

Lemma step_keeps_station st a :
  (view st = Inspection -> is_Some (selectedSub st)) ->
  view (step st a) = Inspection -> is_Some (selectedSub (step st a)).
Proof.
  intros Hinv. unfold step, render.
  destruct (negb (Server.truthy (user st))), (view st) eqn:Hv, a;
    simpl; try done; try (by rewrite ?Hv);
    repeat case_match; simpl; try done; by rewrite ?Hv.
Qed.

Lemma run_snoc stored actions a :
  run stored (actions ++ [a]) = step (run stored actions) a.
Proof. unfold run. by rewrite foldl_app. Qed.

Lemma run_keeps_station stored actions :
  view (run stored actions) = Inspection ->
  is_Some (selectedSub (run stored actions)).
Proof.
  induction actions as [|a actions IH] using rev_ind; [done|].
  rewrite run_snoc. by apply step_keeps_station.
Qed.

(** X15.  Whatever [localStorage] held at start and whatever the user
    does, [App] always renders one of its pages: the inspection view is
    never entered without a selected substation. *)
Theorem app_never_blank stored actions :
  is_blank (render (run stored actions)) = false.
Proof.
  pose proof (run_keeps_station stored actions) as Hinv.
  unfold render. destruct (negb _); [done|].
  destruct (view (run stored actions)); try done.
  by destruct Hinv as [sub ->].
Qed.

(** The [user] state is the stored one or comes from the login form. *)
Lemma step_keeps_user stored st a :
  (user st = None \/ user st = stored \/
   exists id, user st = Some id /\ String.length id = 6%nat /\
              all_digits id = true) ->
  user (step st a) = None \/ user (step st a) = stored \/
  exists id, user (step st a) = Some id /\ String.length id = 6%nat /\
             all_digits id = true.
Proof.
  intros Hinv. unfold step.
  destruct (render st), a; simpl; try done; try (by left).
  destruct (handleSubmit (onChange value)) as [id|] eqn:Hid; [|done].
  right. right. exists id. split; [done|]. exact (login_id_facts _ _ Hid).
Qed.

Lemma run_keeps_user stored actions :
  user (run stored actions) = None \/ user (run stored actions) = stored \/
  exists id, user (run stored actions) = Some id /\
             String.length id = 6%nat /\ all_digits id = true.
Proof.
  induction actions as [|a actions IH] using rev_ind; [by right; left|].
  rewrite run_snoc. by apply step_keeps_user.
Qed.

(** X16.  The employee identifier that [InspectionPage] receives is never
    empty, and it is either the identifier found in [localStorage] at start
    or six decimal digits from the login form. *)
Theorem inspection_page_employee stored actions sub employee :
  render (run stored actions) = ShowInspection sub employee ->
  employee <> "" /\
  (stored = Some employee \/
   (String.length employee = 6%nat /\ all_digits employee = true)).
Proof.
  intros Hrender. pose proof (run_keeps_user stored actions) as Huser.
  unfold render in Hrender.
  destruct (Server.truthy (user (run stored actions))) eqn:Ht; [|done].
  simpl in Hrender.
  destruct (view (run stored actions)); try done.
  destruct (selectedSub (run stored actions)); [|done].
  injection Hrender as _ <-.
  destruct (user (run stored actions)) as [u|]; [|done]. simpl in *.
  split.
  - intros ->. done.
  - destruct Huser as [?|[<-|(id & [= <-] & ? & ?)]]; [done|by left|by right].
Qed.

(** X17.  The [ssvi_user] entry of [localStorage] always equals the [user]
    state, so a reload of the page starts with the same user. *)
Theorem stored_user_in_step stored actions :
  user (initialApp (stored_user (run stored actions)))
  = user (run stored actions).
Proof.
  simpl. induction actions as [|a actions IH] using rev_ind; [done|].
  rewrite run_snoc. unfold step.
  destruct (render (run stored actions)), a; simpl; try done.
  by destruct (handleSubmit (onChange value)).
Qed.

(** ** InspectionPage *)

Lemma appendCompressed_name process file name :
  Server.originalname (appendCompressed process file name) = name.
Proof. unfold appendCompressed. by destruct (process file). Qed.

Lemma appendCompressed_body process file name :
  Server.buffer (appendCompressed process file name)
  = file_content (default file (process file)).
Proof. unfold appendCompressed. by destruct (process file). Qed.

Lemma partName_inj key sfx i j :
  partName key i sfx = partName key j sfx -> i = j.
Proof.
  unfold partName. intros H.
  apply (inj (String.app key)), (inj (String.app "_")) in H.
  apply string_app_inj_r, (inj pretty) in H. lia.
Qed.

Lemma partName_head c key i sfx :
  partName (String c key) i sfx = String c (partName key i sfx).
Proof. reflexivity. Qed.

Lemma group_names process key sfx l :
  Server.originalname
    <$> imap (fun i file =>
                appendCompressed process file (partName key i sfx)) l
  = imap (fun i _ => partName key i sfx) l.
Proof.
  rewrite fmap_imap. apply imap_ext. intros i x _. simpl.
  apply appendCompressed_name.
Qed.

Lemma group_bodies process key sfx l :
  Server.buffer
    <$> imap (fun i file =>
                appendCompressed process file (partName key i sfx)) l
  = (fun file => file_content (default file (process file))) <$> l.
Proof.
  rewrite fmap_imap, <- imap_const. apply imap_ext. intros i x _. simpl.
  apply appendCompressed_body.
Qed.

Lemma group_names_NoDup key sfx (l : list ClientFile) :
  NoDup (imap (fun i _ => partName key i sfx) l).
Proof.
  apply NoDup_alt. intros i j name.
  rewrite !list_lookup_imap, !fmap_Some.
  intros (_ & _ & ->) (_ & _ & H). by apply partName_inj in H.
Qed.

Lemma elem_of_group_names key sfx (l : list ClientFile) name :
  name ∈ imap (fun i _ => partName key i sfx) l ->
  exists i, name = partName key i sfx.
Proof.
  intros (i & H)%list_elem_of_lookup_1.
  rewrite list_lookup_imap, fmap_Some in H. destruct H as (_ & _ & ->).
  by exists i.
Qed.

Lemma photoParts_names process p checklists sfx :
  Server.originalname <$> photoParts process p checklists sfx
  = (imap (fun i _ => partName "building" i sfx) (building p)
     ++ imap (fun i _ => partName "yard" i sfx) (yard p)
     ++ imap (fun i _ => partName "roof" i sfx) (roof p)
     ++ imap (fun i _ => partName "checklist" i sfx) checklists)%list.
Proof.
  unfold photoParts, entries. simpl. rewrite app_nil_r, <- !app_assoc.
  rewrite !fmap_app. by rewrite !group_names.
Qed.

(** X18.  The files of one submission are sent under pairwise different
    names, whatever the photos, the checklists and the outcome of the image
    processing. *)
Theorem upload_names_distinct process p checklists sfx :
  NoDup (Server.originalname <$> photoParts process p checklists sfx).
Proof.
  rewrite photoParts_names.
  repeat (apply NoDup_app; split; [apply group_names_NoDup|split]);
    try apply group_names_NoDup;
    intros name [i ->]%elem_of_group_names;
    rewrite ?elem_of_app;
    intros H; decompose [or] H;
    match goal with
    | H' : _ ∈ imap _ _ |- _ =>
        apply elem_of_group_names in H' as [j H'];
        rewrite !partName_head in H'; discriminate H'
    end.
Qed.

Lemma every_photo_bodies process p checklists sfx :
  Server.buffer <$> photoParts process p checklists sfx
  = (fun file => file_content (default file (process file)))
      <$> (building p ++ yard p ++ roof p ++ checklists)%list.
Proof.
  unfold photoParts, entries. simpl. rewrite app_nil_r, <- !app_assoc.
  rewrite !fmap_app. by rewrite !group_bodies.
Qed.

(** X19.  Every photo and every checklist is sent exactly once, in the
    order building, yard, roof, checklist; each one is the processed image
    when the processing worked and the original file when it failed. *)
Theorem every_photo_is_sent process p checklists sfx :
  Server.buffer <$> photoParts process p checklists sfx
  = (fun file => file_content (default file (process file)))
      <$> (building p ++ yard p ++ roof p ++ checklists)%list.
Proof. apply every_photo_bodies. Qed.

Lemma omap_imap_Some {A} (f : nat -> A -> option A) (l : list A) :
  (forall i x, f i x = Some x) ->
  omap (fun x => x) (imap f l) = l.
Proof.
  revert f. induction l as [|x l IH]; intros f Hf; [done|].
  rewrite imap_cons. simpl. rewrite Hf. f_equal. apply IH.
  intros i y. apply Hf.
Qed.

(** X20.  Removing the photo at position [i] deletes that photo and keeps
    the others in their order; a position outside the list removes
    nothing. *)
Theorem removeAt_deletes {A} (i : nat) (l : list A) :
  removeAt i l = delete i l.
Proof.
  unfold removeAt. revert i. induction l as [|x l IH]; intros i; [done|].
  rewrite imap_cons. destruct i as [|i]; simpl.
  - by apply omap_imap_Some.
  - f_equal. apply IH.
Qed.

(** X21.  A page that is ready to submit sends at least four files: one
    for each fixed point and one checklist. *)
Theorem ready_form_has_four_files
    process employeeId substation location iso p checklists sfx :
  isReady p checklists = true ->
  (4 <= length (Server.files (buildForm process employeeId substation location
                                        iso p checklists sfx)))%nat.
Proof.
  unfold isReady. rewrite !andb_true_iff, !Nat.ltb_lt.
  intros [[[Hb Hy] Hr] Hc]. simpl.
  rewrite <- (length_fmap Server.buffer), every_photo_bodies, length_fmap.
  rewrite !length_app. lia.
Qed.

(** ** DashboardPage *)

Lemma hasLog_spec recent sub :
  hasLog recent sub = true <->
  exists log, log ∈ recent /\ Server.substation_name log = Geo.name sub.
Proof.
  unfold hasLog. rewrite existsb_exists. split.
  - intros (log & Hin & Heq). exists log. split; [by apply list_elem_of_In|].
    by apply String.eqb_eq.
  - intros (log & Hin & Heq). exists log. split; [by apply list_elem_of_In|].
    by apply String.eqb_eq.
Qed.

Lemma hasLog_latestLog recent sub :
  hasLog recent sub = true -> is_Some (latestLog recent sub).
Proof.
  unfold hasLog, latestLog. rewrite existsb_exists. intros (log & Hin & Heq).
  destruct (List.find _ recent) eqn:E; [done|].
  by rewrite (find_none _ _ E log Hin) in Heq.
Qed.

(** The first match in a list sorted by [R] is in relation with every
    other match. *)
Lemma find_first_sorted {A} (R : A -> A -> Prop) (f : A -> bool) l x :
  StronglySorted R l -> List.find f l = Some x ->
  forall y, y ∈ l -> f y = true -> y = x \/ R x y.
Proof.
  induction 1 as [|a l Hs IH Hall]; [done|]. simpl.
  destruct (f a) eqn:Hfa.
  - intros [= <-] y [->|Hy]%elem_of_cons _; [by left|right].
    rewrite Forall_forall in Hall. by apply Hall.
  - intros Hfind y [->|Hy]%elem_of_cons Hfy; [congruence|by apply IH].
Qed.

Lemma elem_of_inspected catalog recent sub o :
  (sub, o) ∈ inspectedSubstations catalog recent <->
  sub ∈ catalog /\ hasLog recent sub = true /\ o = latestLog recent sub.
Proof.
  unfold inspectedSubstations.
  change (map ?f ?l) with (f <$> l).
  rewrite list_elem_of_fmap. setoid_rewrite list_elem_of_filter. split.
  - intros (sub' & [= <- ->] & Hlog & Hin). split; [done|]. split; [|done].
    by apply Is_true_true.
  - intros (Hin & Hlog & ->). exists sub. split; [done|]. split; [|done].
    by apply Is_true_true.
Qed.

(** X22.  Every substation of the catalogue is on exactly one of the two
    lists of the dashboard, pending or inspected. *)
Theorem dashboard_lists_partition catalog recent :
  (pendingSubstations catalog recent
   ++ (fst <$> inspectedSubstations catalog recent))%list ≡ₚ catalog.
Proof.
  unfold pendingSubstations, inspectedSubstations.
  induction catalog as [|sub catalog IH]; [done|].
  rewrite !filter_cons. destruct (hasLog recent sub) eqn:E; simpl.
  - rewrite <- Permutation_middle. by constructor.
  - by constructor.
Qed.

Lemma inspected_latest_facts catalog window sub o :
  (sub, o) ∈ inspectedSubstations catalog
               (take 100 (sort_by Server.newer_first window)) ->
  exists log,
    o = Some log /\ log ∈ window /\
    Server.substation_name log = Geo.name sub /\
    forall log', log' ∈ take 100 (sort_by Server.newer_first window) ->
      Server.substation_name log' = Geo.name sub ->
      Server.ts_leb (Server.timestamp log') (Server.timestamp log) = true.
Proof.
  set (recent := take 100 _).
  intros (Hin & Hlog & ->)%elem_of_inspected.
  destruct (hasLog_latestLog _ _ Hlog) as [log Hfind]. exists log.
  split; [done|]. unfold latestLog in Hfind.
  pose proof (find_some _ _ Hfind) as [Hmem Hname].
  apply list_elem_of_In in Hmem. apply String.eqb_eq in Hname.
  split; [|split; [done|]].
  - subst recent. apply elem_of_take in Hmem as (i & Hmem & _).
    apply list_elem_of_lookup_2 in Hmem. by apply elem_of_sort_by in Hmem.
  - intros log' Hmem' Hname'.
    destruct (find_first_sorted _ _ _ _ (ServerFacts.newest_first_sorted window)
                Hfind log' Hmem') as [->|H]; [by apply String.eqb_eq| |done].
    destruct (Server.ts_leb (Server.timestamp log) (Server.timestamp log)) eqn:E;
      [done|]. pose proof (ServerFacts.ts_leb_total _ _ E). congruence.
Qed.

(** X23.  On the rows that the statistics route returns, each card of the
    inspected list carries a log: a row of the queried window for that very
    substation, and the newest one among the returned rows of that
    substation. *)
Theorem inspected_card_shows_newest catalog window sub o :
  (sub, o) ∈ inspectedSubstations catalog
               (take 100 (sort_by Server.newer_first window)) ->
  exists log,
    o = Some log /\ log ∈ window /\
    Server.substation_name log = Geo.name sub /\
    forall log', log' ∈ take 100 (sort_by Server.newer_first window) ->
      Server.substation_name log' = Geo.name sub ->
      Server.ts_leb (Server.timestamp log') (Server.timestamp log) = true.
Proof. apply inspected_latest_facts. Qed.

Lemma filter_names_NoDup (P : Geo.Substation -> bool) catalog :
  NoDup (Geo.name <$> catalog) ->
  NoDup (Geo.name <$> filter (fun sub => P sub) catalog).
Proof.
  induction catalog as [|sub catalog IH]; [done|].
  rewrite fmap_cons, NoDup_cons. intros [Hnotin Hnd].
  rewrite filter_cons. destruct (P sub); simpl; [|by apply IH].
  apply NoDup_cons. split; [|by apply IH].
  intros (sub' & Heq & Hin)%list_elem_of_fmap. apply Hnotin.
  apply list_elem_of_fmap. exists sub'. split; [done|].
  by apply list_elem_of_filter in Hin as [_ Hin].
Qed.

Lemma catalog_split catalog recent :
  length catalog
  = (length (pendingSubstations catalog recent)
     + length (filter (fun sub => hasLog recent sub) catalog))%nat.
Proof.
  unfold pendingSubstations. induction catalog as [|sub catalog IH]; [done|].
  rewrite !filter_cons. destruct (hasLog recent sub); simpl; lia.
Qed.

Lemma elem_of_recent (log : Server.LogRow) window :
  log ∈ take 100 (sort_by Server.newer_first window) -> log ∈ window.
Proof.
  intros (i & Hmem & _)%elem_of_take.
  apply list_elem_of_lookup_2 in Hmem. by apply elem_of_sort_by in Hmem.
Qed.

Lemma inspected_at_most_total catalog window :
  NoDup (Geo.name <$> catalog) ->
  (length (filter (fun sub => hasLog (take 100 (sort_by Server.newer_first window))
                                     sub) catalog)
   <= length (remove_dups (Server.substation_name <$> window)))%nat.
Proof.
  intros Hnd. set (recent := take 100 _).
  rewrite <- (length_fmap Geo.name). apply submseteq_length, NoDup_submseteq.
  - by apply (filter_names_NoDup (hasLog recent)).
  - intros n (sub & -> & Hin)%list_elem_of_fmap.
    apply list_elem_of_filter in Hin as [Hlog _].
    apply Is_true_true, hasLog_spec in Hlog as (log & Hmem & Hname).
    apply elem_of_remove_dups, list_elem_of_fmap. exists log.
    split; [done|]. by apply elem_of_recent.
Qed.

(** X24.  The number on the pending card, computed from [total], never
    exceeds the length of the pending list, computed from [recent]. *)
Theorem pending_card_at_most_pending_list catalog window :
  NoDup (map Geo.name catalog) ->
  (pendingCard catalog
     (Z.of_nat (length (remove_dups (map Server.substation_name window))))
   <= Z.of_nat (length (pendingSubstations catalog
                          (take 100 (sort_by Server.newer_first window)))))%Z.
Proof.
  change (map ?f ?l) with (f <$> l).
  intros Hnd. unfold pendingCard.
  pose proof (inspected_at_most_total catalog window Hnd).
  pose proof (catalog_split catalog (take 100 (sort_by Server.newer_first window))).
  lia.
Qed.

(** X25.  When the window has at most 100 rows and every row names a
    substation of the catalogue, the pending card shows exactly the length
    of the pending list. *)
Theorem pending_card_matches_pending_list catalog window :
  NoDup (map Geo.name catalog) ->
  (length window <= 100)%nat ->
  Forall (fun log => Server.substation_name log ∈ map Geo.name catalog) window ->
  pendingCard catalog
    (Z.of_nat (length (remove_dups (map Server.substation_name window))))
  = Z.of_nat (length (pendingSubstations catalog
                        (take 100 (sort_by Server.newer_first window)))).
Proof.
  change (map ?f ?l) with (f <$> l).
  intros Hnd Hlen Hnames. unfold pendingCard.
  pose proof (inspected_at_most_total catalog window Hnd) as Hle.
  pose proof (catalog_split catalog (take 100 (sort_by Server.newer_first window)))
    as Hsplit.
  assert (length (remove_dups (Server.substation_name <$> window))
          <= length (filter (fun sub =>
                       hasLog (take 100 (sort_by Server.newer_first window)) sub)
                     catalog))%nat; [|lia].
  rewrite <- (length_fmap Geo.name (filter _ catalog)).
  apply submseteq_length, NoDup_submseteq; [apply NoDup_remove_dups|].
  intros n (log & -> & Hmem)%elem_of_remove_dups%list_elem_of_fmap.
  rewrite Forall_forall in Hnames.
  destruct (proj1 (list_elem_of_fmap _ _ _) (Hnames log Hmem))
    as (sub & Hname & Hin).
  apply list_elem_of_fmap. exists sub. split; [done|].
  apply list_elem_of_filter. split; [|done].
  apply Is_true_true, hasLog_spec. exists log. split; [|done].
  rewrite take_ge by (rewrite sort_by_length; lia).
  by apply elem_of_sort_by.
Qed.

(** ** Concrete runs *)

Lemma login_id_is_six_digits_witness :
  String.length "123456" = 6%nat /\ all_digits "123456" = true.
Proof. exact (login_id_is_six_digits "12ab34-56" "123456" eq_refl). Defined.

Lemma inspection_page_employee_witness :
  "123456" <> "" /\
  (None = Some "123456" \/
   (String.length "123456" = 6%nat /\ all_digits "123456" = true)).
Proof.
  exact (inspection_page_employee None
           [SubmitLoginForm "123456"; ClickStation sample_station]
           sample_station "123456" eq_refl).
Defined.

Lemma ready_form_has_four_files_witness :
  (4 <= length (Server.files
                  (buildForm (fun _ => None) "123456" sample_station None
                             "2026-02-25T03:00:00.000Z" sample_photos
                             sample_checklists "1000_250269")))%nat.
Proof.
  exact (ready_form_has_four_files (fun _ => None) "123456" sample_station None
           "2026-02-25T03:00:00.000Z" sample_photos sample_checklists
           "1000_250269" eq_refl).
Defined.

Lemma inspected_card_shows_newest_witness :
  exists log,
    Some (Server.mkLogRow 3 "654321" "สามชุก" (Server.mkTimestamp 2026 2 700000)
            (Some "14.755") (Some "100.095") "drive-5" "completed")
    = Some log /\
    log ∈ Server.sample_log /\
    Server.substation_name log = Geo.name sample_station /\
    forall log',
      log' ∈ take 100 (sort_by Server.newer_first Server.sample_log) ->
      Server.substation_name log' = Geo.name sample_station ->
      Server.ts_leb (Server.timestamp log') (Server.timestamp log) = true.
Proof.
  apply (inspected_card_shows_newest [sample_station] Server.sample_log
           sample_station).
  vm_compute. left.
Defined.

Lemma pending_card_at_most_pending_list_witness :
  (pendingCard Geo.SUBSTATIONS
     (Z.of_nat (length (remove_dups
                          (map Server.substation_name Server.sample_log))))
   <= Z.of_nat (length (pendingSubstations Geo.SUBSTATIONS
                          (take 100 (sort_by Server.newer_first
                                             Server.sample_log)))))%Z.
Proof.
  apply (pending_card_at_most_pending_list Geo.SUBSTATIONS Server.sample_log).
  apply (bool_decide_unpack _). vm_compute. exact I.
Defined.

Lemma pending_card_matches_pending_list_witness :
  pendingCard Geo.SUBSTATIONS
    (Z.of_nat (length (remove_dups
                         (map Server.substation_name Server.sample_log))))
  = Z.of_nat (length (pendingSubstations Geo.SUBSTATIONS
                        (take 100 (sort_by Server.newer_first
                                           Server.sample_log)))).
Proof.
  apply (pending_card_matches_pending_list Geo.SUBSTATIONS Server.sample_log);
    [ apply (bool_decide_unpack _); vm_compute; exact I
    | simpl; lia
    | apply (bool_decide_unpack _); vm_compute; exact I ].
Defined.

End ClientFacts.

(* ===================================================================== *)
(** * More facts about the selection page                                 *)
(* ===================================================================== *)

Module GeoExtras.
Import Geo GeoFacts.

Local Open Scope R_scope.

(** ** The haversine formula *)


Lemma haversine_angle (t : R) :
  0 <= t <= PI / 2 ->
  Math_atan2 (sqrt (sin t * sin t)) (sqrt (1 - sin t * sin t)) = t.
Proof.
  intros [Hlo Hup]. pose proof PI_RGT_0 as Hpi.
  assert (Hsin : 0 <= sin t) by (apply sin_ge_0; lra).
  assert (Hcos : 0 <= cos t) by (apply cos_ge_0; lra).
  replace (1 - sin t * sin t) with (Rsqr (cos t))
    by (rewrite cos2; unfold Rsqr; ring).
  replace (sin t * sin t) with (Rsqr (sin t)) by (unfold Rsqr; ring).
  rewrite !sqrt_Rsqr by done.
  unfold Math_atan2. destruct Hup as [Hup| ->].
  - assert (0 < cos t) by (apply cos_gt_0; lra).
    destruct (Rlt_dec 0 (cos t)); [|lra].
    change (sin t / cos t) with (tan t). apply atan_tan. lra.
  - rewrite cos_PI2, sin_PI2.
    destruct (Rlt_dec 0 0); [lra|]. destruct (Rlt_dec 0 1); [done|lra].
Qed.

Lemma meridian_distance_up lat1 lat2 lon :
  0 <= lat2 - lat1 <= 180 ->
  calculateDistance lat1 lon lat2 lon = 6371 * ((lat2 - lat1) * PI / 180).
Proof.
  intros [Hlo Hup]. pose proof PI_RGT_0 as Hpi. unfold calculateDistance.
  replace ((lon - lon) * PI / 180 / 2) with 0 by (unfold Rdiv; ring).
  rewrite sin_0.
  set (t := (lat2 - lat1) * PI / 180 / 2).
  replace (sin t * sin t + cos (lat1 * PI / 180) * cos (lat2 * PI / 180) * 0 * 0)
    with (sin t * sin t) by ring.
  rewrite haversine_angle; [unfold t; lra|].
  unfold t. split.
  - apply Rmult_le_pos; [|lra]. apply Rmult_le_pos; [|lra].
    apply Rmult_le_pos; lra.
  - assert ((lat2 - lat1) * PI <= 180 * PI) by (apply Rmult_le_compat_r; lra).
    lra.
Qed.

Lemma meridian_distance_eq lat1 lat2 lon :
  Rabs (lat2 - lat1) <= 180 ->
  calculateDistance lat1 lon lat2 lon = 6371 * (Rabs (lat2 - lat1) * PI / 180).
Proof.
  intros H. destruct (Rle_dec 0 (lat2 - lat1)) as [Hpos|Hneg].
  - rewrite Rabs_right in * by lra. by apply meridian_distance_up.
  - rewrite Rabs_left in * by lra. rewrite calculateDistance_sym.
    replace (- (lat2 - lat1)) with (lat1 - lat2) in * by ring.
    apply meridian_distance_up. lra.
Qed.

(** X26.  Along a meridian the computed distance is the length of the arc:
    two points of equal longitude whose latitudes differ by [d] degrees
    (at most 180) are [6371 * d * PI / 180] km apart, about 111.19 km for
    one degree. *)
Theorem meridian_distance lat1 lat2 lon :
  Rabs (lat2 - lat1) <= 180 ->
  calculateDistance lat1 lon lat2 lon = 6371 * (Rabs (lat2 - lat1) * PI / 180).
Proof. apply meridian_distance_eq. Qed.


(** ** The lists of the page *)

Lemma within_2_within_10 r d :
  distance r = Some d -> d <= 2 -> within_10 r = true.
Proof.
  intros Hd H2. unfold within_10. rewrite Hd. apply Rle_bool_spec. lra.
Qed.

Lemma flagged_station_facts catalog latitude longitude r :
  nearestSub (onPosition catalog latitude longitude (initialState catalog))
  = Some r ->
  head (displayNearby
          (onPosition catalog latitude longitude (initialState catalog)))
  = Some r /\
  station r ∈ catalog /\
  0 < distanceFrom latitude longitude r <= 2 /\
  forall sub, sub ∈ catalog ->
    distanceFrom latitude longitude r
    <= calculateDistance latitude longitude (lat sub) (lng sub).
Proof.
  unfold displayNearby, nearbySubstations. rewrite sorted_onPosition.
  unfold onPosition.
  destruct (sort_by stays_before (withDistance catalog latitude longitude))
    as [|first rest] eqn:Hsort; [done|].
  destruct (nearest_is_minimum _ _ _ _ _ Hsort) as [Hd Hmin].
  assert (Hin : first ∈ withDistance catalog latitude longitude).
  { apply (elem_of_sort_by stays_before). rewrite Hsort. by left. }
  apply elem_of_withDistance in Hin as [Hcat _].
  destruct (number_truthy (distance first)
            && Rle_bool (or_zero (distance first)) 2) eqn:Hdet; simpl; [|done].
  intros [= <-]. apply andb_true_iff in Hdet as [Hnz H2].
  rewrite Hd, or_zero_some in H2. apply Rle_bool_spec in H2.
  rewrite Hd in Hnz. unfold number_truthy in Hnz.
  destruct (Req_dec_T (distanceFrom latitude longitude first) 0) as [|Hne];
    [done|].
  pose proof (calculateDistance_nonneg latitude longitude
                (lat (station first)) (lng (station first))) as Hge.
  fold (distanceFrom latitude longitude first) in Hge.
  rewrite filter_cons, (within_2_within_10 _ _ Hd H2). simpl.
  repeat split; try done. lra.
Qed.

(** X28.  A station flagged as detected on the first position fix is a
    catalogue station that no other station is nearer than, its distance is
    positive and at most 2 km, and it is the first entry of the nearby
    list. *)
Theorem flagged_station_is_nearest catalog latitude longitude r :
  nearestSub (onPosition catalog latitude longitude (initialState catalog))
  = Some r ->
  head (displayNearby
          (onPosition catalog latitude longitude (initialState catalog)))
  = Some r /\
  station r ∈ catalog /\
  0 < distanceFrom latitude longitude r <= 2 /\
  forall sub, sub ∈ catalog ->
    distanceFrom latitude longitude r
    <= calculateDistance latitude longitude (lat sub) (lng sub).
Proof. apply flagged_station_facts. Qed.

Lemma initial_nearby catalog :
  filter (fun sub => within_10 sub) (map (fun sub => mkRanked sub None) catalog)
  = [].
Proof.
  induction catalog as [|sub catalog IH]; [done|].
  simpl. by rewrite filter_cons.
Qed.

(** X29.  When the position is refused, the page stops loading, flags no
    station and shows the first three stations of the catalogue, in
    catalogue order, as nearby. *)
Theorem no_position_shows_first_three catalog :
  let st := onPositionError (initialState catalog) in
  loading st = false /\ nearestSub st = None /\
  map station (displayNearby st) = take 3 catalog.
Proof.
  intros st. split; [done|]. split; [done|].
  unfold displayNearby, nearbySubstations. simpl. rewrite initial_nearby. simpl.
  change (map ?f ?l) with (f <$> l). rewrite <- fmap_take, <- list_fmap_compose.
  simpl. apply list_fmap_id.
Qed.

Lemma filter_agree {A} (P Q : A -> bool) (l : list A) :
  (forall x, x ∈ l -> P x = Q x) ->
  filter (fun x => P x) l = filter (fun x => Q x) l.
Proof.
  induction l as [|x l IH]; intros H; [done|].
  rewrite !filter_cons, (H x) by by left.
  rewrite IH; [done|]. intros y Hy. apply H. by right.
Qed.

Lemma existsb_id_spec (shown : list Ranked) (sub : Ranked) :
  existsb (fun n => String.eqb (id (station n)) (id (station sub))) shown = true
  <-> id (station sub) ∈ (fun n => id (station n)) <$> shown.
Proof.
  rewrite existsb_exists, list_elem_of_fmap. split.
  - intros (n & Hin & Heq). exists n. apply String.eqb_eq in Heq.
    split; [done|]. by apply list_elem_of_In.
  - intros (n & Heq & Hin). exists n. split; [by apply list_elem_of_In|].
    by apply String.eqb_eq.
Qed.

(** A sublist and the entries whose identifier is not in it make up the
    list, when identifiers are not repeated. *)
Lemma split_by_id (shown all : list Ranked) :
  shown `sublist_of` all ->
  NoDup ((fun n => id (station n)) <$> all) ->
  (shown ++ filter (fun sub =>
              negb (existsb (fun n => String.eqb (id (station n))
                                                 (id (station sub))) shown))
              all)%list ≡ₚ all.
Proof.
  induction 1 as [|x shown all Hsub IH|x shown all Hsub IH].
  - done.
  - rewrite fmap_cons, NoDup_cons. intros [Hx Hnd].
    rewrite filter_cons. simpl. rewrite String.eqb_refl. simpl.
    constructor. rewrite <- (IH Hnd) at 2. f_equiv.
    rewrite (filter_agree
               (fun sub => negb (String.eqb (id (station x)) (id (station sub))
                                 || existsb (fun n => String.eqb (id (station n))
                                               (id (station sub))) shown))
               (fun sub => negb (existsb (fun n => String.eqb (id (station n))
                                            (id (station sub))) shown))
               all); [done|].
    intros y Hy. simpl.
    destruct (String.eqb_spec (id (station x)) (id (station y))) as [Heq|];
      [|done].
    exfalso. apply Hx. rewrite Heq. apply list_elem_of_fmap. by exists y.
  - rewrite fmap_cons, NoDup_cons. intros [Hx Hnd].
    rewrite filter_cons.
    destruct (existsb _ shown) eqn:E; simpl.
    + exfalso. apply existsb_id_spec in E. apply Hx.
      apply list_elem_of_fmap in E as (n & -> & Hn).
      apply list_elem_of_fmap. exists n. split; [done|].
      by eapply elem_of_sublist.
    + rewrite <- Permutation_middle. constructor. by apply IH.
Qed.

Lemma displayNearby_sublist st :
  displayNearby st `sublist_of` sortedSubstations st.
Proof.
  unfold displayNearby, nearbySubstations.
  destruct (0 <? _)%nat; [apply sublist_filter | apply sublist_take].
Qed.

(** X30.  When no two entries of the ranking share an identifier, each of
    them is shown exactly once: the nearby list followed by the list of the
    other stations is a rearrangement of the ranking. *)
Theorem every_station_is_listed_once st :
  NoDup (map (fun n => id (station n)) (sortedSubstations st)) ->
  (displayNearby st ++ otherSubstations st)%list ≡ₚ sortedSubstations st.
Proof.
  intros Hnd. unfold otherSubstations.
  apply split_by_id; [apply displayNearby_sublist | done].
Qed.

(** ** Concrete runs *)

Lemma meridian_distance_witness :
  calculateDistance 14.755 100.095 14.765 100.095
  = 6371 * (Rabs (14.765 - 14.755) * PI / 180).
Proof.
  apply (meridian_distance 14.755 14.765 100.095).
  unfold Rabs. destruct (Rcase_abs _); lra.
Defined.

(** A device one hundredth of a degree north of the only station of the
    catalogue, about 1.1 km away. *)
Lemma one_hundredth_degree :
  0 < calculateDistance 14.765 100.095 14.755 100.095 <= 2.
Proof.
  rewrite meridian_distance_eq by (unfold Rabs; destruct (Rcase_abs _); lra).
  pose proof PI_RGT_0. pose proof PI_4.
  unfold Rabs. destruct (Rcase_abs _); lra.
Qed.

Lemma sample_fix_flags :
  nearestSub (onPosition [mkSubstation "sam-chuk" "สามชุก" 14.755 100.095]
                         14.765 100.095
                         (initialState
                            [mkSubstation "sam-chuk" "สามชุก" 14.755 100.095]))
  = Some (mkRanked (mkSubstation "sam-chuk" "สามชุก" 14.755 100.095)
                   (Some (calculateDistance 14.765 100.095 14.755 100.095))).
Proof.
  pose proof one_hundredth_degree as [Hpos Hle].
  unfold onPosition, withDistance, initialState.
  cbn [map sort_by insert_by lat lng distance nearestSub].
  rewrite or_zero_some. unfold number_truthy.
  destruct (Req_dec_T _ 0) as [Hz|_]; [lra|].
  by rewrite (proj2 (Rle_bool_spec _ _) Hle).
Qed.

Lemma flagged_station_is_nearest_witness :
  head (displayNearby
          (onPosition [mkSubstation "sam-chuk" "สามชุก" 14.755 100.095]
                      14.765 100.095
                      (initialState
                         [mkSubstation "sam-chuk" "สามชุก" 14.755 100.095])))
  = Some (mkRanked (mkSubstation "sam-chuk" "สามชุก" 14.755 100.095)
                   (Some (calculateDistance 14.765 100.095 14.755 100.095))).
Proof.
  exact (proj1 (flagged_station_is_nearest _ _ _ _ sample_fix_flags)).
Defined.

Lemma every_station_is_listed_once_witness :
  (displayNearby (initialState SUBSTATIONS)
   ++ otherSubstations (initialState SUBSTATIONS))%list
  ≡ₚ sortedSubstations (initialState SUBSTATIONS).
Proof.
  apply (every_station_is_listed_once (initialState SUBSTATIONS)).
  apply (bool_decide_unpack _). vm_compute. exact I.
Defined.

End GeoExtras.
